(** * aiflows: distributed flow invocation and the multithreaded launcher

    A shallow embedding of
      - [aiflows/utils/coflows_utils.py]   ([FlowFuture], [push_to_flow]),
      - [aiflows/utils/io_utils.py]        ([coflows_serialize], [coflows_deserialize]),
      - [aiflows/utils/colink_protocol_utils.py] (the simple-invoke protocol),
      - [flows/flow_launchers/flow_API_launcher.py]
                                           ([FlowMultiThreadedAPILauncher.predict]),
    followed by the properties of these functions.

    Python code is embedded in a state-and-exception monad: a computation
    takes the state of the object it works on (the CoLink handle, the
    launcher) and gives back an outcome (a value, a raised exception, or a
    call that never returns because it blocks) with the new state. *)

From Stdlib Require Import ZArith NArith Ascii.
From stdpp Require Import gmap strings list pretty.

Set Warnings "-register-all".
Local Open Scope Z_scope.

(** ** Python values *)

(** The JSON-like values that travel in message payloads and sample records,
    plus message objects themselves (the non fault-tolerant launcher stores
    the message object, not its data, among the outputs). *)
Inductive value : Type :=
| VNone
| VBool (b : bool)
| VInt (z : Z)
| VStr (s : string)
| VList (l : list value)
| VDict (d : gmap string value)
| VMessage (data : gmap string value) (src_flow dst_flow : string).

(** A message: [data] is a dict, [src_flow] and [dst_flow] name the units. *)
Record Message : Type := mkMessage {
  msg_data : gmap string value;
  msg_src : string;
  msg_dst : string
}.

Definition value_of_message (m : Message) : value :=
  VMessage (msg_data m) (msg_src m) (msg_dst m).

(** Exceptions carry their class name, [str(e)], and whether their class
    derives from [Exception]: that is what an [except Exception] handler
    looks at. *)
Record exn : Type := mkExn {
  exn_type : string;
  exn_str : string;
  exn_is_Exception : bool
}.

(** The builtin classes that derive from [BaseException] only. *)
Definition base_only_classes : list string :=
  ["BaseException"; "BaseExceptionGroup"; "GeneratorExit";
   "KeyboardInterrupt"; "SystemExit"].

(** An exception of a builtin class, given by name; a class of the program's
    own is given with [mkExn]. *)
Definition Exn (type str : string) : exn :=
  mkExn type str (negb (bool_decide (type ∈ base_only_classes))).

(** [str(KeyError(k))] is the repr of the key. *)
Definition KeyError (k : string) : exn := Exn "KeyError" ("'" +:+ k +:+ "'").
Definition TypeError (msg : string) : exn := Exn "TypeError" msg.
Definition ValueError (msg : string) : exn := Exn "ValueError" msg.
Definition IndexError (msg : string) : exn := Exn "IndexError" msg.
Definition AssertionError (msg : string) : exn := Exn "AssertionError" msg.

(** ** Outcomes and the state-and-exception monad *)

Inductive outcome (A : Type) : Type :=
| Ok (a : A)
| Raise (e : exn)
| Blocked.
Arguments Ok {A} a.
Arguments Raise {A} e.
Arguments Blocked {A}.

Definition M (S A : Type) : Type := S -> outcome A * S.

Definition ret {S A} (a : A) : M S A := fun s => (Ok a, s).
Definition raise {S A} (e : exn) : M S A := fun s => (Raise e, s).
Definition block {S A} : M S A := fun s => (Blocked, s).
Definition bind {S A B} (c : M S A) (k : A -> M S B) : M S B :=
  fun s =>
    match c s with
    | (Ok a, s') => k a s'
    | (Raise e, s') => (Raise e, s')
    | (Blocked, s') => (Blocked, s')
    end.
Definition get_state {S} : M S S := fun s => (Ok s, s).
Definition modify {S} (f : S -> S) : M S unit := fun s => (Ok tt, f s).

Declare Scope py_scope.
Delimit Scope py_scope with py.
Notation "x <- c ;; k" := (bind c (fun x => k))
  (at level 100, c at next level, right associativity) : py_scope.
Notation "c ;;; k" := (bind c (fun _ => k))
  (at level 100, right associativity) : py_scope.
Local Open Scope py_scope.

(** [d[k]] on a dict. *)
Definition getitem {S} (d : gmap string value) (k : string) : M S value :=
  match d !! k with
  | Some v => ret v
  | None => raise (KeyError k)
  end.

(** [d[k1][k2] = v]: the inner object is looked up (KeyError when missing)
    and must support item assignment with a string key; the outer dict keeps
    referring to the same, now updated, inner dict. *)
Definition setitem2 {S} (d : gmap string value) (k1 k2 : string) (v : value)
  : M S (gmap string value) :=
  inner <- getitem d k1 ;;
  match inner with
  | VDict i => ret (<[k1 := VDict (<[k2 := v]> i)]> d)
  | _ => raise (TypeError "object does not support item assignment")
  end.

(** ** UUIDs *)

(** [uuid.uuid4()] draws a random 128-bit number; its [str] is the 32
    hexadecimal digits in groups of 8-4-4-4-12. *)
Record UUID : Type := mkUUID { uuid_int : N }.

Definition hex_digit (n : N) : ascii :=
  nth (N.to_nat n) (String.list_ascii_of_string "0123456789abcdef") "0"%char.

Fixpoint hex_digits (k : nat) (n : N) (acc : string) : string :=
  match k with
  | O => acc
  | S k' => hex_digits k' (N.shiftr n 4) (String (hex_digit (N.land n 15)) acc)
  end.

Definition uuid_str (u : UUID) : string :=
  let h := hex_digits 32 (uuid_int u) "" in
  String.substring 0 8 h +:+ "-" +:+ String.substring 8 4 h +:+ "-" +:+ String.substring 12 4 h
    +:+ "-" +:+ String.substring 16 4 h +:+ "-" +:+ String.substring 20 12 h.

(** ** The coordination substrate (CoLink) *)

Record Participant : Type := mkParticipant { user_id : string; role : string }.

(** Byte strings are kept symbolic: what was encoded and by which encoder. *)
Inductive wire : Type :=
| WSerialized (m : Message)      (* message.serialize() *)
| WJson (v : value)              (* json.dumps(v).encode("utf-8") *)
| WPickle (v : value)            (* pickle.dumps(v) *)
| WRaw (s : string).             (* any other bytes *)

(** The operations a handle issues to the substrate, in order. *)
Inductive op : Type :=
| OpCreateEntry (key : string) (payload : wire)
| OpUpdateEntry (key : string) (payload : wire)
| OpReadEntry (key : string)
| OpReadOrWait (key : string)
| OpRunTask (protocol : string) (param : wire)
            (participants : list Participant) (flag : bool)
| OpSendVariable (name : string) (payload : wire) (receivers : list Participant)
| OpRecvVariable (name : string) (sender : Participant)
| OpSubscribe (key : string)
| OpNewSubscriber (queue : string)
| OpNextMessage (queue : string).

(** Modelled from the spec: the CoLink handle ([colink] is an external
    package), after the substrate contract of section 6: a key-value store
    with write-once [create_entry], overwriting [update_entry], non-blocking
    [read_entry], blocking [read_or_wait], [run_task], point-to-point
    variables and subscription queues. [cl_inbox] holds the variables other
    participants have sent to this one, [cl_queues] the messages that will
    arrive on each subscription queue, [cl_trace] every operation issued.
    The substrate may reject a spawn (capacity, permission: sections 4.2 and
    7): [cl_spawn_error] is the error [run_task] then raises. *)
Record CoLink : Type := mkCoLink {
  cl_user_id : string;
  cl_task_id : string;
  cl_storage : gmap string wire;
  cl_inbox : gmap (string * string) wire;
  cl_queues : gmap string (list value);
  cl_trace : list op;
  cl_spawn_error : option exn
}.

Definition log (o : op) (cl : CoLink) : CoLink :=
  mkCoLink (cl_user_id cl) (cl_task_id cl) (cl_storage cl) (cl_inbox cl)
           (cl_queues cl) (cl_trace cl ++ [o]) (cl_spawn_error cl).

Definition set_storage (st : gmap string wire) (cl : CoLink) : CoLink :=
  mkCoLink (cl_user_id cl) (cl_task_id cl) st (cl_inbox cl)
           (cl_queues cl) (cl_trace cl) (cl_spawn_error cl).

Definition set_queues (q : gmap string (list value)) (cl : CoLink) : CoLink :=
  mkCoLink (cl_user_id cl) (cl_task_id cl) (cl_storage cl) (cl_inbox cl)
           q (cl_trace cl) (cl_spawn_error cl).

Definition get_user_id : M CoLink string :=
  fun cl => (Ok (cl_user_id cl), cl).

Definition get_task_id : M CoLink string :=
  fun cl => (Ok (cl_task_id cl), cl).

Definition create_entry (key : string) (payload : wire) : M CoLink unit :=
  modify (log (OpCreateEntry key payload)) ;;;
  cl <- get_state ;;
  match cl_storage cl !! key with
  | Some _ => raise (Exn "RpcError" "entry already exists")
  | None => modify (set_storage (<[key := payload]> (cl_storage cl)))
  end.

Definition update_entry (key : string) (payload : wire) : M CoLink unit :=
  modify (log (OpUpdateEntry key payload)) ;;;
  cl <- get_state ;;
  modify (set_storage (<[key := payload]> (cl_storage cl))).

Definition read_entry (key : string) : M CoLink (option wire) :=
  modify (log (OpReadEntry key)) ;;;
  cl <- get_state ;;
  ret (cl_storage cl !! key).

Definition read_or_wait (key : string) : M CoLink wire :=
  modify (log (OpReadOrWait key)) ;;;
  cl <- get_state ;;
  match cl_storage cl !! key with
  | Some b => ret b
  | None => block
  end.

Definition run_task (protocol : string) (param : wire)
    (participants : list Participant) (flag : bool) : M CoLink unit :=
  modify (log (OpRunTask protocol param participants flag)) ;;;
  cl <- get_state ;;
  match cl_spawn_error cl with
  | Some e => raise e
  | None => ret tt
  end.

Definition send_variable (name : string) (payload : wire)
    (receivers : list Participant) : M CoLink unit :=
  modify (log (OpSendVariable name payload receivers)).

Definition recv_variable (name : string) (sender : Participant)
  : M CoLink wire :=
  modify (log (OpRecvVariable name sender)) ;;;
  cl <- get_state ;;
  match cl_inbox cl !! (name, user_id sender) with
  | Some b => ret b
  | None => block
  end.

Definition subscribe (key : string) : M CoLink string :=
  modify (log (OpSubscribe key)) ;;;
  ret key.

Definition new_subscriber (queue : string) : M CoLink string :=
  modify (log (OpNewSubscriber queue)) ;;;
  ret queue.

(** Modelled from the spec: [get_next_update_message] of
    [aiflows.utils.colink_helpers] (not among the sources): the blocking
    "next message" read over a subscription, which returns the output
    message carried by the next notification on the queue. *)
Definition get_next_update_message (subscriber : string) : M CoLink value :=
  modify (log (OpNextMessage subscriber)) ;;;
  cl <- get_state ;;
  match cl_queues cl !! subscriber with
  | Some (m :: rest) =>
      modify (set_queues (<[subscriber := rest]> (cl_queues cl))) ;;;
      ret m
  | _ => block
  end.

(** ** Serialization helpers ([io_utils.py]) *)

(** What [json.dumps] accepts: message objects are not JSON values. *)
Fixpoint json_serializable (v : value) : bool :=
  match v with
  | VList l => forallb json_serializable l
  | VDict d => map_fold (fun _ x acc => json_serializable x && acc) true d
  | VMessage _ _ _ => false
  | _ => true
  end.

Definition coflows_serialize {S} (data : value) : M S wire :=
  if json_serializable data then ret (WJson data)
  else raise (TypeError "Object is not JSON serializable").

Definition coflows_deserialize {S} (encoded_data : option wire)
  : M S (option value) :=
  match encoded_data with
  | None => ret None
  | Some (WJson v) => ret (Some v)
  | Some _ => raise (Exn "JSONDecodeError" "Expecting value")
  end.

Definition pickle_dumps (v : value) : wire := WPickle v.

Definition pickle_loads {S} (b : wire) : M S value :=
  match b with
  | WPickle v => ret v
  | _ => raise (Exn "UnpicklingError" "invalid load key")
  end.

(** An unpickled object used as a message: [obj.data] is an
    AttributeError on anything else. *)
Definition as_message {S} (obj : value) : M S Message :=
  match obj with
  | VMessage d s t => ret (mkMessage d s t)
  | _ => raise (Exn "AttributeError" "object has no attribute 'data'")
  end.

(** The same message object after its [data] dict was mutated. *)
Definition with_data (m : Message) (d : gmap string value) : Message :=
  mkMessage d (msg_src m) (msg_dst m).

(** How an object is rendered inside an f-string: exactly for [str], [None],
    [bool] and [int]; a list, a dict or a message, whose [str] depends on
    insertion order and on classes outside the sources, only gets a mark.
    Properties that name a key or a queue are stated for the values that
    are rendered exactly. *)
Definition format_value (v : value) : string :=
  match v with
  | VStr s => s
  | VNone => "None"
  | VBool true => "True"
  | VBool false => "False"
  | VInt z => pretty z
  | _ => "<object>"
  end.

(** The values that [format_value] renders as Python does. *)
Definition rendered_exactly (v : value) : bool :=
  match v with
  | VStr _ | VNone | VBool _ | VInt _ => true
  | _ => false
  end.

(** Entry keys must be [str]. *)
Definition as_key {S} (v : value) : M S string :=
  match v with
  | VStr s => ret s
  | _ => raise (TypeError "key must be str")
  end.

(** [l[i]] on a list. *)
Definition list_getitem {S A} (l : list A) (i : nat) : M S A :=
  match l !! i with
  | Some x => ret x
  | None => raise (IndexError "list index out of range")
  end.

(** ** [coflows_utils.py] *)

Definition PUSH_ARGS_TRANSFER_PATH : string := "push_tasks".

(** [FlowFuture]: [self.cl] is the handle the methods run on (the state of
    the monad); the object itself holds the storage key. *)
Record FlowFuture : Type := mkFlowFuture { colink_storage_key : string }.

Definition FlowFuture_init (msg_id : UUID) : FlowFuture :=
  mkFlowFuture (PUSH_ARGS_TRANSFER_PATH +:+ ":" +:+ uuid_str msg_id +:+ ":response").

(** Modelled from the spec: [OutputMessage.deserialize] of
    [aiflows.messages] (not among the sources). Section 4.1 has [poll]
    return none when the addressed entry is absent, with no error, and the
    stored message otherwise; like [coflows_deserialize], the decoder
    passes [None] through, and it decodes what [serialize] produced. *)
Definition OutputMessage_deserialize {S} (encoded_data : option wire)
  : M S (option Message) :=
  match encoded_data with
  | None => ret None
  | Some (WSerialized m) => ret (Some m)
  | Some _ => raise (Exn "JSONDecodeError" "Expecting value")
  end.

Definition try_get (self : FlowFuture) : M CoLink (option Message) :=
  b <- read_entry (colink_storage_key self) ;;
  OutputMessage_deserialize b.

Definition get (self : FlowFuture) (output_data_only : bool) : M CoLink value :=
  b <- read_or_wait (colink_storage_key self) ;;
  message <- OutputMessage_deserialize (Some b) ;;
  match message with
  | Some m =>
      if output_data_only then getitem (msg_data m) "output_data"
      else ret (value_of_message m)
  | None => raise (Exn "AttributeError" "'NoneType' object has no attribute 'data'")
  end.

(** What a call of [push_to_flow] can hand back to its caller. *)
Inductive pushed : Type :=
| RetUUID (u : UUID)
| RetFuture (f : FlowFuture).

(** [push_to_flow(cl, target_user_id, target_flow_ref, message)];
    [push_msg_id] is the value drawn by [uuid.uuid4()]. *)
Definition push_to_flow (target_user_id target_flow_ref : string)
    (message : Message) (push_msg_id : UUID) : M CoLink pushed :=
  is_local <- (if String.eqb target_user_id "local" then ret true
               else uid <- get_user_id ;; ret (String.eqb target_user_id uid)) ;;
  participants <-
    (if is_local : bool then
       uid <- get_user_id ;;
       ret [mkParticipant uid "receiver"]
     else
       uid <- get_user_id ;;
       ret [mkParticipant uid "initiator";
            mkParticipant target_user_id "receiver"]) ;;
  create_entry
    (PUSH_ARGS_TRANSFER_PATH +:+ ":" +:+ uuid_str push_msg_id +:+ ":msg")
    (WSerialized message) ;;;
  let push_param :=
    VDict (<["flow_id" := VStr target_flow_ref]>
             (<["message_id" := VStr (uuid_str push_msg_id)]> ∅)) in
  param <- coflows_serialize push_param ;;
  run_task "coflows_push" param participants true ;;;
  ret (RetUUID push_msg_id).

(** ** Flows as seen by their callers *)

(** A call into a flow or an interface returns or raises (it is taken to
    terminate). *)
Inductive result (A : Type) : Type :=
| Returns (a : A)
| Throws (e : exn).
Arguments Returns {A} a.
Arguments Throws {A} e.

(** The interface of a flow object: its internal state, its [name], what
    [flow(input_message)], [flow.reset(full_reset=True, recursive=True)]
    and [flow.__getstate__(ignore_colink_info=True)] do. *)
Record FlowClass : Type := mkFlowClass {
  flow_state : Type;
  flow_name : flow_state -> string;
  flow_call : flow_state -> Message -> result Message * flow_state;
  flow_reset : flow_state -> result unit * flow_state;
  flow_getstate : flow_state -> value
}.

(** ** [colink_protocol_utils.py]: the simple-invoke protocol *)

Definition run_simpleinvoke_initiator (param : wire)
    (participants : list Participant) : M CoLink unit :=
  target_flow_queue <- pickle_loads param ;;
  tid <- get_task_id ;;
  input_msg_b <- read_or_wait
    ("simple-invoke-init:" +:+ format_value target_flow_queue +:+ ":" +:+ tid
       +:+ ":input_msg") ;;
  target <- list_getitem participants 1 ;;
  send_variable "input_msg" input_msg_b [target] ;;;
  target' <- list_getitem participants 1 ;;
  output_msg_b <- recv_variable "output_msg" target' ;;
  tid' <- get_task_id ;;
  create_entry
    ("simple-invoke-init:" +:+ format_value target_flow_queue +:+ ":" +:+ tid'
       +:+ ":output_msg")
    output_msg_b.

(** [ephemeral_flow_create] is [None] in the queue-relay submode; otherwise
    it gives the flow class and the state of a newly created instance. *)
Definition run_simpleinvoke_targetflow
    (ephemeral_flow_create : option {F : FlowClass & flow_state F})
    (param : wire) (participants : list Participant) : M CoLink unit :=
  let use_ephemeral_flow :=
    match ephemeral_flow_create with Some _ => true | None => false end in
  target_flow_queue <- pickle_loads param ;;
  setup <-
    (if negb use_ephemeral_flow then
       tid <- get_task_id ;;
       let response_queue_name :=
         "simple-invoke-serve:" +:+ format_value target_flow_queue +:+ ":" +:+ tid in
       response_queue <- subscribe response_queue_name ;;
       response_subscriber <- new_subscriber response_queue ;;
       ret (Some (response_queue_name, response_subscriber))
     else ret None) ;;
  initiator <- list_getitem participants 0 ;;
  input_msg_b <- recv_variable "input_msg" initiator ;;
  input_obj <- pickle_loads input_msg_b ;;
  input_msg <- as_message input_obj ;;
  output_msg <-
    (match ephemeral_flow_create with
     | None =>
         match setup with
         | Some (response_queue_name, response_subscriber) =>
             data' <- setitem2 (msg_data input_msg) "colink_meta_data"
                        "response_queue_name" (VStr response_queue_name) ;;
             key <- as_key target_flow_queue ;;
             update_entry key
               (pickle_dumps (value_of_message (with_data input_msg data'))) ;;;
             get_next_update_message response_subscriber
         | None => raise (Exn "NameError" "name 'response_queue_name' is not defined")
         end
     | Some (existT F flow) =>
         match flow_call F flow input_msg with
         | (Throws e, _) => raise e
         | (Returns output_msg, flow') =>
             let data := msg_data output_msg in
             let data1 :=
               match data !! "meta_data" with
               | None => <["colink_meta_data" := VDict ∅]> data
               | Some _ => data
               end in
             data2 <- setitem2 data1 "colink_meta_data" "state"
                        (flow_getstate F flow') ;;
             ret (value_of_message (with_data output_msg data2))
         end
     end) ;;
  initiator' <- list_getitem participants 0 ;;
  send_variable "output_msg" (pickle_dumps output_msg) [initiator'].

(** ** [flow_API_launcher.py]: [FlowMultiThreadedAPILauncher] *)

(** Python objects that are shared by reference: the batch (a list of
    samples) and each sample (a dict) live in a heap, so that what [predict]
    writes into a sample is seen through the batch its caller holds. *)
Definition loc : Type := positive.

Inductive pyobj : Type :=
| PyList (items : list loc)
| PyDict (d : gmap string value).

(** [time.sleep(secs)] *)
Definition sleep {S} (secs : Z) : M S unit :=
  if secs <? 0 then raise (ValueError "sleep length must be non-negative")
  else ret tt.

Definition lift_result {S A} (r : result A) : M S A :=
  match r with
  | Returns a => ret a
  | Throws e => raise e
  end.

Section Launcher.
Context (F : FlowClass).

(** One entry of [self.flows]: a flow instance with its two interfaces
    (each possibly [None]). An interface is called with the flow and a
    [data_dict]; it returns the transformed data or raises. *)
Record FlowWithInterfaces : Type := mkFlowWithInterfaces {
  flow : flow_state F;
  input_interface :
    option (flow_state F -> gmap string value -> result (gmap string value));
  output_interface : option (flow_state F -> value -> result value)
}.

Definition with_flow (fw : FlowWithInterfaces) (f : flow_state F)
  : FlowWithInterfaces :=
  mkFlowWithInterfaces f (input_interface fw) (output_interface fw).

(** The attributes of the launcher that [predict] only reads. *)
Record Launcher : Type := mkLauncher {
  n_independent_samples : Z;
  fault_tolerant_mode : bool;
  n_batch_retries : Z;
  wait_time_between_retries : Z;
  paths_to_output_files : list string
}.

(** What [predict] reads and writes: the flows of the resource slots, the
    queue of free slot ids, the heap holding batch and samples, and the
    records written so far to each output file. *)
Record World : Type := mkWorld {
  flows : list FlowWithInterfaces;
  _resource_IDs : list nat;
  heap : gmap loc pyobj;
  output_files : list (string * list (gmap string value))
}.

Definition set_flows (fl : list FlowWithInterfaces) (w : World) : World :=
  mkWorld fl (_resource_IDs w) (heap w) (output_files w).
Definition set_resource_IDs (q : list nat) (w : World) : World :=
  mkWorld (flows w) q (heap w) (output_files w).
Definition set_heap (h : gmap loc pyobj) (w : World) : World :=
  mkWorld (flows w) (_resource_IDs w) h (output_files w).
Definition set_output_files (o : list (string * list (gmap string value)))
    (w : World) : World :=
  mkWorld (flows w) (_resource_IDs w) (heap w) o.

(** [queue.Queue.get()] blocks while the queue is empty. *)
Definition queue_get : M World nat :=
  w <- get_state ;;
  match _resource_IDs w with
  | [] => block
  | i :: rest => modify (set_resource_IDs rest) ;;; ret i
  end.

Definition queue_put (i : nat) : M World unit :=
  w <- get_state ;;
  modify (set_resource_IDs (_resource_IDs w ++ [i])).

Definition read_list (l : loc) : M World (list loc) :=
  w <- get_state ;;
  match heap w !! l with
  | Some (PyList items) => ret items
  | _ => raise (TypeError "object is not a list")
  end.

Definition read_dict (l : loc) : M World (gmap string value) :=
  w <- get_state ;;
  match heap w !! l with
  | Some (PyDict d) => ret d
  | _ => raise (TypeError "object is not a dict")
  end.

(** [sample[k] = v] on the dict at [l]. *)
Definition dict_setitem (l : loc) (k : string) (v : value) : M World unit :=
  d <- read_dict l ;;
  w <- get_state ;;
  modify (set_heap (<[l := PyDict (<[k := v]> d)]> (heap w))).

(** Runs a computation on the flow of slot [rid]: the flow object is
    reached through the reference taken from [self.flows] at the start of
    [predict], and keeps whatever state the computation leaves it in. *)
Definition on_flow {A} (rid : nat) (fw : FlowWithInterfaces)
    (c : M (flow_state F) A) : M World A :=
  fun w =>
    let '(r, f') := c (flow fw) in
    (r, set_flows (<[rid := with_flow fw f']> (flows w)) w).

(** Modelled from the spec: [InputMessage.build] of [flows.messages] (not
    among the sources): the message carrying [data_dict] from [src_flow]
    to [dst_flow]. *)
Definition InputMessage_build (data_dict : gmap string value)
    (src_flow dst_flow : string) : Message :=
  mkMessage data_dict src_flow dst_flow.

(** The statements shared by both modes: build the input message, call the
    flow, take ["output_data"], apply the output interface. Gives the
    output message and the human readable output. *)
Definition invoke (fw : FlowWithInterfaces)
    (input_data_dict : gmap string value) : M (flow_state F) (Message * value) :=
  f <- get_state ;;
  let input_message :=
    InputMessage_build input_data_dict "Launcher" (flow_name F f) in
  output_message <- (fun f0 => let '(r, f1) := flow_call F f0 input_message in
                               (match r with
                                | Returns m => Ok m
                                | Throws e => Raise e
                                end, f1)) ;;
  output_data <- getitem (msg_data output_message) "output_data" ;;
  output_data' <-
    (match output_interface fw with
     | Some oi => f' <- get_state ;; lift_result (oi f' output_data)
     | None => ret output_data
     end) ;;
  ret (output_message, output_data').

(** [try: ... except Exception as e: ...]: an exception of the body whose
    class derives from [Exception] is handed to the handler as a value; any
    other one ([KeyboardInterrupt], [SystemExit], ...) goes on propagating. *)
Definition try_except {S A} (c : M S A) : M S (result A) :=
  fun s =>
    match c s with
    | (Ok a, s') => (Ok (Returns a), s')
    | (Raise e, s') =>
        if exn_is_Exception e then (Ok (Throws e), s') else (Raise e, s')
    | (Blocked, s') => (Blocked, s')
    end.

(** The variables a repetition works on. *)
Record Acc : Type := mkAcc {
  inference_outputs : list value;
  human_readable_outputs : list value;
  _error : option string
}.

(** [while _attempt_idx <= self.n_batch_retries], with [k] the number of
    attempts left, that is [n_batch_retries - _attempt_idx + 1]. The
    handler formats the sample's id into the log line, sleeps, and records
    [str(e)]. *)
Fixpoint attempts (self : Launcher) (fw : FlowWithInterfaces)
    (sample input_data_dict : gmap string value) (k : nat) (acc : Acc)
  : M (flow_state F) Acc :=
  match k with
  | O => ret acc
  | S k' =>
      r <- try_except (invoke fw input_data_dict) ;;
      match r with
      | Returns (output_message, output_data) =>
          ret (mkAcc (inference_outputs acc ++ [VDict (msg_data output_message)])
                     (human_readable_outputs acc ++ [output_data])
                     None)
      | Throws e =>
          getitem sample "id" ;;;
          sleep (wait_time_between_retries self) ;;;
          attempts self fw sample input_data_dict k'
            (mkAcc (inference_outputs acc) (human_readable_outputs acc)
                   (Some (exn_str e)))
      end
  end.

(** The body of [for _sample_idx in range(self.n_independent_samples)] up
    to the test of [_error]. *)
Definition repetition (self : Launcher) (fw : FlowWithInterfaces)
    (sample input_data_dict : gmap string value) (acc : Acc)
  : M (flow_state F) Acc :=
  getitem sample "id" ;;;
  let acc0 := mkAcc (inference_outputs acc) (human_readable_outputs acc) None in
  if fault_tolerant_mode self then
    attempts self fw sample input_data_dict (Z.to_nat (n_batch_retries self)) acc0
  else
    r <- invoke fw input_data_dict ;;
    let '(output_message, output_data) := r in
    ret (mkAcc (inference_outputs acc0 ++ [value_of_message output_message])
               (human_readable_outputs acc0 ++ [output_data])
               None).

Definition reset : M (flow_state F) unit :=
  fun f => let '(r, f') := flow_reset F f in
           (match r with Returns u => Ok u | Throws e => Raise e end, f').

(** The [for] loop over the repetitions, [n] of them left. *)
Fixpoint repetitions (self : Launcher) (fw : FlowWithInterfaces)
    (sample input_data_dict : gmap string value) (n : nat) (acc : Acc)
  : M (flow_state F) Acc :=
  match n with
  | O => ret acc
  | S n' =>
      acc' <- repetition self fw sample input_data_dict acc ;;
      match _error acc' with
      | Some _ => ret acc'
      | None =>
          reset ;;;
          repetitions self fw sample input_data_dict n' acc'
      end
  end.

Definition error_value (e : option string) : value :=
  match e with
  | Some s => VStr s
  | None => VNone
  end.

(** The body of [for sample in batch] up to the three assignments: the
    input interface, then the repetitions. Nothing writes to the sample
    before the assignments (flows and interfaces are taken not to mutate the
    dicts they are handed), so its contents are read once. *)
Definition inference (self : Launcher) (fw : FlowWithInterfaces)
    (sample : gmap string value) : M (flow_state F) Acc :=
  input_data_dict <-
    (match input_interface fw with
     | Some ii => f <- get_state ;; lift_result (ii f sample)
     | None => ret sample
     end) ;;
  repetitions self fw sample input_data_dict
    (Z.to_nat (n_independent_samples self)) (mkAcc [] [] None).

Definition run_sample (self : Launcher) (rid : nat) (fw : FlowWithInterfaces)
    (sample_loc : loc) : M World unit :=
  sample <- read_dict sample_loc ;;
  acc <- on_flow rid fw (inference self fw sample) ;;
  dict_setitem sample_loc "inference_outputs" (VList (inference_outputs acc)) ;;;
  dict_setitem sample_loc "human_readable_outputs"
    (VList (human_readable_outputs acc)) ;;;
  dict_setitem sample_loc "error" (error_value (_error acc)).

Fixpoint for_each_sample (self : Launcher) (rid : nat)
    (fw : FlowWithInterfaces) (items : list loc) : M World unit :=
  match items with
  | [] => ret tt
  | sample_loc :: rest =>
      run_sample self rid fw sample_loc ;;;
      for_each_sample self rid fw rest
  end.

Definition keys_to_write : list string :=
  ["id"; "inference_outputs"; "human_readable_outputs"; "error"].

Definition record_of (keys : list string) (d : gmap string value)
  : gmap string value :=
  foldr (fun k r => match d !! k with Some v => <[k := v]> r | None => r end)
        ∅ keys.

Fixpoint read_dicts (items : list loc) : M World (list (gmap string value)) :=
  match items with
  | [] => ret []
  | l :: rest =>
      d <- read_dict l ;;
      ds <- read_dicts rest ;;
      ret (d :: ds)
  end.

(** Modelled from the spec: [write_batch_output] of the parent class
    [MultiThreadedAPILauncher] (not among the sources): it appends to the
    output file one record per sample of the batch, holding the sample's
    values for [keys_to_write]. *)
Definition write_batch_output (items : list loc) (path_to_output_file : string)
    (keys : list string) : M World unit :=
  ds <- read_dicts items ;;
  w <- get_state ;;
  modify (set_output_files
            (output_files w ++ [(path_to_output_file, record_of keys <$> ds)])).

Definition predict (self : Launcher) (batch : loc) : M World loc :=
  items <- read_list batch ;;
  (if decide (length items = 1%nat) then ret tt
   else raise (AssertionError
     "The Flow API model does not support batch sizes greater than 1.")) ;;;
  _resource_id <- queue_get ;;
  w <- get_state ;;
  flow_with_interfaces <- list_getitem (flows w) _resource_id ;;
  path_to_output_file <- list_getitem (paths_to_output_files self) _resource_id ;;
  for_each_sample self _resource_id flow_with_interfaces items ;;;
  write_batch_output items path_to_output_file keys_to_write ;;;
  queue_put _resource_id ;;;
  ret batch.

End Launcher.

Arguments flow {F} _.
Arguments input_interface {F} _.
Arguments output_interface {F} _.
Arguments mkFlowWithInterfaces {F} _ _ _.
Arguments with_flow {F} _ _.
Arguments flows {F} _.
Arguments _resource_IDs {F} _.
Arguments heap {F} _.
Arguments output_files {F} _.
Arguments mkWorld {F} _ _ _ _.
Arguments invoke {F} _ _.
Arguments attempts {F} _ _ _ _ _ _.
Arguments repetition {F} _ _ _ _ _.
Arguments repetitions {F} _ _ _ _ _ _.
Arguments reset {F}.
Arguments inference {F} _ _ _.
Arguments run_sample {F} _ _ _ _.
Arguments for_each_sample {F} _ _ _ _.
Arguments write_batch_output {F} _ _ _.
Arguments predict {F} _ _.
Arguments set_flows {F} _ _.
Arguments set_resource_IDs {F} _ _.
Arguments set_heap {F} _ _.
Arguments set_output_files {F} _ _.
Arguments queue_get {F}.
Arguments queue_put {F} _.
Arguments read_list {F} _.
Arguments read_dict {F} _.
Arguments read_dicts {F} _.
Arguments dict_setitem {F} _ _ _.
Arguments on_flow {F A} _ _ _.

(** ** Outcomes of the retry loop *)

(** What the retry loop leaves behind: nothing (no attempt allowed), one
    more output and no error, or the message of the failure of its last
    attempt and no new output. In the last two cases the flow is left as
    the deciding invocation left it. *)
Inductive attempts_post {F : FlowClass} (fw : FlowWithInterfaces F)
    (idd : gmap string value) (k : nat) (acc : Acc) (f : flow_state F)
  : Acc -> flow_state F -> Prop :=
| AttemptsNone : k = O -> attempts_post fw idd k acc f acc f
| AttemptsSuccess f0 m od f' :
    invoke fw idd f0 = (Ok (m, od), f') ->
    attempts_post fw idd k acc f
      (mkAcc (inference_outputs acc ++ [VDict (msg_data m)])
             (human_readable_outputs acc ++ [od]) None) f'
| AttemptsFailure f0 e f' :
    invoke fw idd f0 = (Raise e, f') ->
    attempts_post fw idd k acc f
      (mkAcc (inference_outputs acc) (human_readable_outputs acc)
             (Some (exn_str e))) f'.

(** The message [s] is that of the failure of the invocation that left the
    flow in state [f']. *)
Definition last_failure {F : FlowClass} (fw : FlowWithInterfaces F)
    (idd : gmap string value) (f' : flow_state F) (s : string) : Prop :=
  exists f0 e, invoke fw idd f0 = (Raise e, f') /\ exn_str e = s.

(** Whatever the invocation of the flow of [fw] on [idd] raises is an
    instance of [Exception]. *)
Definition raises_exceptions_only {F : FlowClass} (fw : FlowWithInterfaces F)
    (idd : gmap string value) : Prop :=
  forall f e f', invoke fw idd f = (Raise e, f') -> exn_is_Exception e = true.

(** The sample once [predict] has assigned its three keys. *)
Definition sample_after (d : gmap string value) (acc : Acc) : gmap string value :=
  <["error" := error_value (_error acc)]>
    (<["human_readable_outputs" := VList (human_readable_outputs acc)]>
       (<["inference_outputs" := VList (inference_outputs acc)]> d)).

(** The sample at [s] and the record written for it to [path] in the run
    from [w] to [w'] hold [outputs] as their inference outputs and [err] as
    their error field; the record is the one the run appended. *)
Definition recorded {F : FlowClass} (w w' : World F) (s : loc) (path : string)
    (outputs : list value) (err : value) : Prop :=
  exists d' record,
    heap w' !! s = Some (PyDict d')
    /\ output_files w' = output_files w ++ [(path, [record])]
    /\ d' !! "inference_outputs" = Some (VList outputs)
    /\ d' !! "error" = Some err
    /\ record !! "inference_outputs" = Some (VList outputs)
    /\ record !! "error" = Some err.

(** ** Reading traces *)

(** The operations a call issued: what it appended to the trace. *)
Definition issued (before after : CoLink) : list op :=
  drop (length (cl_trace before)) (cl_trace after).

(** The participant lists of the tasks spawned in a trace. *)
Definition spawned_participants (tr : list op) : list (list Participant) :=
  omap (fun o => match o with
                 | OpRunTask _ _ ps _ => Some ps
                 | _ => None
                 end) tr.

Definition msg_key (id : UUID) : string :=
  PUSH_ARGS_TRANSFER_PATH +:+ ":" +:+ uuid_str id +:+ ":msg".

Definition response_key (id : UUID) : string :=
  PUSH_ARGS_TRANSFER_PATH +:+ ":" +:+ uuid_str id +:+ ":response".

(** The role assignment of section 4.2, step 1. *)
Definition role_assignment (caller target : string) : list Participant :=
  if decide (target = "local" \/ target = caller)
  then [mkParticipant caller "receiver"]
  else [mkParticipant caller "initiator"; mkParticipant target "receiver"].

Definition push_param (target_flow_ref : string) (id : UUID) : value :=
  VDict (<["flow_id" := VStr target_flow_ref]>
           (<["message_id" := VStr (uuid_str id)]> ∅)).

(** The name of the response queue of a target-flow task. *)
Definition response_queue_of (target_flow_queue : value) (cl : CoLink) : string :=
  "simple-invoke-serve:" +:+ format_value target_flow_queue +:+ ":" +:+ cl_task_id cl.

(** The statements of [run_simpleinvoke_targetflow] that follow the setup of
    the response queue in the queue-relay submode. *)
Definition relay_after_setup (target_flow_queue : value)
    (response_queue_name response_subscriber : string)
    (participants : list Participant) : M CoLink unit :=
  initiator <- list_getitem participants 0 ;;
  input_msg_b <- recv_variable "input_msg" initiator ;;
  input_obj <- pickle_loads input_msg_b ;;
  input_msg <- as_message input_obj ;;
  output_msg <-
    (data' <- setitem2 (msg_data input_msg) "colink_meta_data"
                "response_queue_name" (VStr response_queue_name) ;;
     key <- as_key target_flow_queue ;;
     update_entry key
       (pickle_dumps (value_of_message (with_data input_msg data'))) ;;;
     get_next_update_message response_subscriber) ;;
  initiator' <- list_getitem participants 0 ;;
  send_variable "output_msg" (pickle_dumps output_msg) [initiator'].

(** A computation that only ever adds operations at the end of the trace. *)
Definition appends {A} (c : M CoLink A) : Prop :=
  forall cl, exists l, cl_trace (snd (c cl)) = cl_trace cl ++ l.

(** ** Concrete runs *)

(** User [u1] with an empty store, about to push a goal to [flowA]. *)
Definition cl_u1 : CoLink := mkCoLink "u1" "task-7" ∅ ∅ ∅ [] None.

Definition goal_message : Message :=
  mkMessage (<["goal" := VStr "x"]> ∅) "caller" "flowA".

Definition id_1 : UUID := mkUUID 1.

Definition answer_message : Message :=
  mkMessage (<["output_data" := VDict (<["answer" := VInt 42]> ∅)]> ∅)
            "flowA" "caller".

(** The same user at a substrate that takes no more tasks. *)
Definition cl_u1_full : CoLink :=
  mkCoLink "u1" "task-7" ∅ ∅ ∅ [] (Some (Exn "DispatchFailed" "capacity")).

(** The same handle once the response of invocation [id_1] is stored. *)
Definition cl_u1_answered : CoLink :=
  mkCoLink "u1" "task-7" (<[response_key id_1 := WSerialized answer_message]> ∅)
           ∅ ∅ [] None.

(** The target side of a task between [u1] (initiator) and [u2]: the input
    has arrived from [u1], and the worker behind [flowA] will answer on the
    response queue of the task. *)
Definition u1_u2 : list Participant :=
  [mkParticipant "u1" "initiator"; mkParticipant "u2" "receiver"].

Definition relayed_input : Message :=
  mkMessage (<["goal" := VStr "x"]> (<["colink_meta_data" := VDict ∅]> ∅))
            "caller" "flowA".

Definition cl_u2 : CoLink :=
  mkCoLink "u2" "task-7" ∅
    (<[("input_msg", "u1") := WPickle (value_of_message relayed_input)]> ∅)
    (<["simple-invoke-serve:flowA:task-7" := [value_of_message answer_message]]> ∅)
    [] None.

(** A flow in the manner of [FixedReplyFlow]: every call returns a message
    with the same data; its state counts the calls. *)
Definition fixed_reply_flow (reply : gmap string value) : FlowClass :=
  mkFlowClass nat
    (fun _ => "FixedReply")
    (fun n m => (Returns (mkMessage reply "FixedReply" (msg_src m)), S n))
    (fun _ => (Returns tt, O))
    (fun n => VDict (<["calls" := VInt (Z.of_nat n)]> ∅)).

(** Output data that already carries a ["meta_data"] entry. *)
Definition reply_with_meta_data : gmap string value :=
  <["output_data" := VStr "done"]> (<["meta_data" := VDict ∅]> ∅).

(** A flow whose first [fail_until] calls raise and whose later calls
    answer; its state counts the calls, across resets. *)
Definition flaky_flow (fail_until : nat) : FlowClass :=
  mkFlowClass nat
    (fun _ => "Flaky")
    (fun n m =>
       if (n <? fail_until)%nat
       then (Throws (Exn "RuntimeError" ("failure " +:+ pretty n)), S n)
       else (Returns (mkMessage (<["output_data" := VStr "ok"]> ∅)
                                "Flaky" (msg_src m)), S n))
    (fun n => (Returns tt, n))
    (fun n => VDict (<["calls" := VInt (Z.of_nat n)]> ∅)).

(** A slot holding a flaky flow, without interfaces. *)
Definition flaky_slot (fail_until : nat) : FlowWithInterfaces (flaky_flow fail_until) :=
  mkFlowWithInterfaces (0%nat : flow_state (flaky_flow fail_until)) None None.

(** The same slot behind an input interface that rejects every sample. *)
Definition rejecting_slot : FlowWithInterfaces (flaky_flow 0) :=
  mkFlowWithInterfaces (0%nat : flow_state (flaky_flow 0))
    (Some (fun _ _ => Throws (KeyError "question"))) None.

Definition sample_0 : gmap string value :=
  <["id" := VInt 0]> (<["goal" := VStr "x"]> ∅).

(** A batch (at location 1) of one sample (at location 2). *)
Definition heap_0 : gmap loc pyobj :=
  <[1%positive := PyList [2%positive]]> (<[2%positive := PyDict sample_0]> ∅).

(** One resource slot, free, and nothing written yet. *)
Definition world_0 {F : FlowClass} (fw : FlowWithInterfaces F) : World F :=
  mkWorld [fw] [0%nat] heap_0 [].

(** Fault-tolerant mode with three attempts, and the development mode. *)
Definition launcher_ft : Launcher := mkLauncher 1 true 3 0 ["out.jsonl"].
Definition launcher_dev : Launcher := mkLauncher 1 false 3 0 ["out.jsonl"].

(** ** [flow_API_launcher.py]: [FlowLauncher.launch] *)

(** [data] is one sample (a dict) or a list of samples. *)
Inductive launch_data : Type :=
| OneSample (d : gmap string value)
| Samples (l : list (gmap string value)).

(** The dict [launch] keeps for a sample when an output file is given. *)
Definition launch_output (id : value) (output_message : Message)
  : gmap string value :=
  <["id" := id]>
    (<["inference_outputs" := VList [value_of_message output_message]]>
       (<["error" := VNone]> ∅)).

Section FlowLauncher.
Context (F : FlowClass).

(** What [launch] works on: the flow it is given, and the output files. *)
Record LaunchWorld : Type := mkLaunchWorld {
  launch_flow : flow_state F;
  launch_files : list (string * list (gmap string value))
}.

Definition on_launch_flow {A} (c : M (flow_state F) A) : M LaunchWorld A :=
  fun w =>
    let '(r, f') := c (launch_flow w) in
    (r, mkLaunchWorld f' (launch_files w)).

(** The body of [for sample in data]; [outs] are [full_outputs] and
    [human_readable_outputs] so far. The sample is a copy, the flow is reset
    first, and the invocation is the one of [predict]. *)
Definition launch_sample (fw : FlowWithInterfaces F) (path_to_output_file : option string)
    (sample : gmap string value) (outs : list (gmap string value) * list value)
  : M (flow_state F) (list (gmap string value) * list value) :=
  reset ;;;
  input_data_dict <-
    (match input_interface fw with
     | Some ii => f <- get_state ;; lift_result (ii f sample)
     | None => ret sample
     end) ;;
  r <- invoke fw input_data_dict ;;
  let '(output_message, output_data) := r in
  let human_readable_outputs := snd outs ++ [output_data] in
  match path_to_output_file with
  | Some _ =>
      id <- getitem sample "id" ;;
      ret (fst outs ++ [launch_output id output_message], human_readable_outputs)
  | None => ret (fst outs, human_readable_outputs)
  end.

Fixpoint launch_loop (fw : FlowWithInterfaces F) (path_to_output_file : option string)
    (data : list (gmap string value)) (outs : list (gmap string value) * list value)
  : M (flow_state F) (list (gmap string value) * list value) :=
  match data with
  | [] => ret outs
  | sample :: rest =>
      outs' <- launch_sample fw path_to_output_file sample outs ;;
      launch_loop fw path_to_output_file rest outs'
  end.

(** [FlowLauncher.launch(flow_with_interfaces, data, path_to_output_file)];
    the write is that of [write_batch_output], on the output dicts. *)
Definition launch (fw : FlowWithInterfaces F) (data : launch_data)
    (path_to_output_file : option string)
  : M LaunchWorld (list (gmap string value) * list value) :=
  let data := match data with OneSample d => [d] | Samples l => l end in
  outs <- on_launch_flow (launch_loop fw path_to_output_file data ([], [])) ;;
  (match path_to_output_file with
   | Some path =>
       modify (fun w =>
         mkLaunchWorld (launch_flow w)
           (launch_files w
              ++ [(path, record_of ["id"; "inference_outputs"; "error"]
                           <$> fst outs)]))
   | None => ret tt
   end) ;;;
  ret outs.

End FlowLauncher.

Arguments launch_flow {F} _.
Arguments launch_files {F} _.
Arguments mkLaunchWorld {F} _ _.
Arguments on_launch_flow {F A} _.
Arguments launch_sample {F} _ _ _ _.
Arguments launch_loop {F} _ _ _ _.
Arguments launch {F} _ _ _.

(** ** Reading the runs of the protocol *)

(** The entries through which a task starter and the initiator role talk. *)
Definition initiator_input_key (target_flow_queue : value) (cl : CoLink) : string :=
  "simple-invoke-init:" +:+ format_value target_flow_queue +:+ ":"
    +:+ cl_task_id cl +:+ ":input_msg".

Definition initiator_output_key (target_flow_queue : value) (cl : CoLink) : string :=
  "simple-invoke-init:" +:+ format_value target_flow_queue +:+ ":"
    +:+ cl_task_id cl +:+ ":output_msg".

(** The data of a message once [response_queue_name] is written into its
    colink metadata [meta]. *)
Definition tagged_data (d meta : gmap string value) (response_queue_name : string)
  : gmap string value :=
  <["colink_meta_data" :=
      VDict (<["response_queue_name" := VStr response_queue_name]> meta)]> d.

(** Operations that only exchange variables with another participant. *)
Definition is_exchange (o : op) : bool :=
  match o with
  | OpSendVariable _ _ _ | OpRecvVariable _ _ => true
  | _ => false
  end.

(** Message objects among the values. *)
Definition is_message (v : value) : bool :=
  match v with
  | VMessage _ _ _ => true
  | _ => false
  end.

(** The samples [launch] goes through. *)
Definition samples_of (data : launch_data) : list (gmap string value) :=
  match data with
  | OneSample d => [d]
  | Samples l => l
  end.

(** What the input interface of [fw] makes of sample [d] on flow state [f]. *)
Definition input_of {F : FlowClass} (fw : FlowWithInterfaces F)
    (f : flow_state F) (d idd : gmap string value) : Prop :=
  match input_interface fw with
  | Some ii => ii f d = Returns idd
  | None => idd = d
  end.

(** The repetitions of the development mode, one after the other from the
    flow state [f]: each invocation returns a message and a readable output,
    the flow is reset, and the next repetition starts from there. [outs] are
    the message objects and [reads] the readable outputs, in order; [f'] is
    the state after the last reset. *)
Inductive dev_chain {F : FlowClass} (fw : FlowWithInterfaces F)
    (idd : gmap string value)
  : flow_state F -> list value -> list value -> flow_state F -> Prop :=
| DevDone f : dev_chain fw idd f [] [] f
| DevStep f m od f1 f2 outs reads f' :
    invoke fw idd f = (Ok (m, od), f1) ->
    flow_reset F f1 = (Returns tt, f2) ->
    dev_chain fw idd f2 outs reads f' ->
    dev_chain fw idd f (value_of_message m :: outs) (od :: reads) f'.

(** A flow that is interrupted from the keyboard at every call. *)
Definition interrupted_flow : FlowClass :=
  mkFlowClass nat
    (fun _ => "Interrupted")
    (fun n m => (Throws (Exn "KeyboardInterrupt" ""), S n))
    (fun n => (Returns tt, n))
    (fun n => VDict ∅).

Definition interrupted_slot : FlowWithInterfaces interrupted_flow :=
  mkFlowWithInterfaces (0%nat : flow_state interrupted_flow) None None.

(** ** More concrete runs *)

(** The initiator side of the task between [u1] and [u2]: the task starter
    has stored the input, and the target has already answered. *)
Definition cl_u1_task : CoLink :=
  mkCoLink "u1" "task-7"
    (<["simple-invoke-init:flowA:task-7:input_msg" :=
         WPickle (value_of_message relayed_input)]> ∅)
    (<[("output_msg", "u2") := WPickle (value_of_message answer_message)]> ∅)
    ∅ [] None.

(** Output data that carries colink metadata of its own. *)
Definition reply_with_hop : gmap string value :=
  <["output_data" := VStr "done"]>
    (<["colink_meta_data" := VDict (<["hop" := VInt 1]> ∅)]> ∅).

(** A flow in its initial state, for [launch]. *)
Definition launch_world_0 : LaunchWorld (flaky_flow 0) :=
  @mkLaunchWorld (flaky_flow 0) 0%nat [].

(** What a flaky flow answers to the launcher once it answers. *)
Definition ok_message : Message :=
  mkMessage (<["output_data" := VStr "ok"]> ∅) "Flaky" "Launcher".

(** A slot holding a fixed-reply flow, whose [reset] forgets the calls. *)
Definition reply_done : gmap string value := <["output_data" := VStr "done"]> ∅.

Definition fixed_reply_slot : FlowWithInterfaces (fixed_reply_flow reply_done) :=
  mkFlowWithInterfaces (0%nat : flow_state (fixed_reply_flow reply_done)) None None.

(** Output data with both kinds of metadata. *)
Definition reply_with_both : gmap string value :=
  <["meta_data" := VDict ∅]> reply_with_hop.

(** A sample without an id. *)
Definition sample_no_id : gmap string value := <["goal" := VStr "x"]> ∅.

Definition heap_no_id : gmap loc pyobj :=
  <[1%positive := PyList [2%positive]]> (<[2%positive := PyDict sample_no_id]> ∅).

(** A batch of two samples, which [predict] refuses. *)
Definition heap_two : gmap loc pyobj :=
  <[1%positive := PyList [2%positive; 3%positive]]>
    (<[2%positive := PyDict sample_0]> (<[3%positive := PyDict sample_0]> ∅)).

(** Fault-tolerant mode without any attempt allowed. *)
Definition launcher_no_retry : Launcher := mkLauncher 2 true 0 0 ["out.jsonl"].

(** A flow that is out of service from its call number [first] up to, and
    not including, its call number [back]; its state counts the calls,
    across resets. *)
Definition outage_flow (first back : nat) : FlowClass :=
  mkFlowClass nat
    (fun _ => "Outage")
    (fun n m =>
       if ((first <=? n) && (n <? back))%nat
       then (Throws (Exn "RuntimeError" ("failure " +:+ pretty n)), S n)
       else (Returns (mkMessage (<["output_data" := VStr "ok"]> ∅)
                                "Outage" (msg_src m)), S n))
    (fun n => (Returns tt, n))
    (fun n => VDict (<["calls" := VInt (Z.of_nat n)]> ∅)).

Definition outage_slot (first back : nat)
  : FlowWithInterfaces (outage_flow first back) :=
  mkFlowWithInterfaces (0%nat : flow_state (outage_flow first back)) None None.

(** What such a flow answers to the launcher, and the data of the answer. *)
Definition outage_answer : Message :=
  mkMessage (<["output_data" := VStr "ok"]> ∅) "Outage" "Launcher".

Definition outage_output : value := VDict (msg_data outage_answer).

(** Fault-tolerant mode with three attempts and two repetitions. *)
Definition launcher_twice : Launcher := mkLauncher 2 true 3 0 ["out.jsonl"].

(** The target side of the task when the input it receives carries no
    colink metadata. *)
Definition cl_u2_untagged : CoLink :=
  mkCoLink "u2" "task-7" ∅
    (<[("input_msg", "u1") := WPickle (value_of_message goal_message)]> ∅)
    ∅ [] None.

(** Fault-tolerant mode with a negative waiting time. *)
Definition launcher_negative_wait : Launcher :=
  mkLauncher 1 true 3 (-1) ["out.jsonl"].

(** * Properties of [push_to_flow] and [FlowFuture] *)

Lemma issued_log cl o : issued cl (log o cl) = [o].
Proof.
  unfold issued, log; simpl.
  rewrite drop_app_length. reflexivity.
Qed.

Lemma push_param_serializable r id : json_serializable (push_param r id) = true.
Proof. reflexivity. Qed.

(** The whole behaviour of one call: it raises after the write when the
    message key is taken; otherwise it writes and asks for the spawn, and
    returns the id unless the substrate rejects the spawn. *)
Lemma push_to_flow_run t r m id cl :
  push_to_flow t r m id cl =
    let cl1 := log (OpCreateEntry (msg_key id) (WSerialized m)) cl in
    match cl_storage cl !! msg_key id with
    | Some _ => (Raise (Exn "RpcError" "entry already exists"), cl1)
    | None =>
        let cl2 :=
          log (OpRunTask "coflows_push" (WJson (push_param r id))
                 (role_assignment (cl_user_id cl) t) true)
            (set_storage (<[msg_key id := WSerialized m]> (cl_storage cl)) cl1) in
        match cl_spawn_error cl with
        | Some e => (Raise e, cl2)
        | None => (Ok (RetUUID id), cl2)
        end
    end.
Proof.
  unfold push_to_flow, role_assignment.
  assert (Hs : coflows_serialize (S := CoLink) (push_param r id)
               = ret (WJson (push_param r id))).
  { unfold coflows_serialize. rewrite push_param_serializable. reflexivity. }
  fold (push_param r id). fold (msg_key id). rewrite Hs. clear Hs.
  unfold bind, get_user_id, create_entry, run_task, modify, get_state, ret, bind.
  destruct (String.eqb_spec t "local") as [-> | Hl]; simpl;
    [| destruct (String.eqb_spec t (cl_user_id cl)) as [-> | Hu]; simpl];
    destruct (cl_storage cl !! msg_key id); simpl; try reflexivity;
    destruct (cl_spawn_error cl); simpl; try reflexivity;
    case_decide; try reflexivity; exfalso; intuition congruence.
Qed.

(** The handle after a call, whether or not the spawn was accepted. *)
Lemma push_to_flow_state t r m id cl :
  snd (push_to_flow t r m id cl) =
    let cl1 := log (OpCreateEntry (msg_key id) (WSerialized m)) cl in
    match cl_storage cl !! msg_key id with
    | Some _ => cl1
    | None =>
        log (OpRunTask "coflows_push" (WJson (push_param r id))
               (role_assignment (cl_user_id cl) t) true)
          (set_storage (<[msg_key id := WSerialized m]> (cl_storage cl)) cl1)
    end.
Proof.
  rewrite push_to_flow_run. cbn zeta.
  destruct (cl_storage cl !! msg_key id); [reflexivity |].
  by destruct (cl_spawn_error cl).
Qed.

(** C1, as stated, fails: user [u1] pushing locally to [flowA] gets the
    invocation id back, not a future. *)
Lemma push_to_flow_returns_no_future :
  ~ exists f cl',
      push_to_flow "local" "flowA" goal_message id_1 cl_u1 = (Ok (RetFuture f), cl')
      /\ colink_storage_key f = response_key id_1.
Proof.
  intros (f & cl' & H & _).
  rewrite push_to_flow_run in H. simpl in H.
  change (cl_storage cl_u1 !! msg_key id_1) with (@None wire) in H.
  discriminate H.
Qed.

(** C1 (amended): a call of [push_to_flow] never returns a future. When
    the message key of the new invocation id is free and the substrate
    accepts the spawn, it returns that id itself; when the substrate rejects
    the spawn, the call ends with the substrate's error, nothing is
    returned, and the message stays stored. The [FlowFuture] built from the
    id is the one addressed by ["push_tasks:{id}:response"]. *)
Theorem push_to_flow_returns_id t r m id cl :
  (forall f, fst (push_to_flow t r m id cl) <> Ok (RetFuture f))
  /\ (cl_storage cl !! msg_key id = None ->
      cl_spawn_error cl = None ->
        fst (push_to_flow t r m id cl) = Ok (RetUUID id))
  /\ (forall e,
        cl_storage cl !! msg_key id = None ->
        cl_spawn_error cl = Some e ->
        fst (push_to_flow t r m id cl) = Raise e
        /\ cl_storage (snd (push_to_flow t r m id cl)) !! msg_key id
           = Some (WSerialized m))
  /\ colink_storage_key (FlowFuture_init id)
       = "push_tasks:" +:+ uuid_str id +:+ ":response".
Proof.
  rewrite push_to_flow_run. cbn zeta.
  split; [| split; [| split]].
  - intros f. destruct (cl_storage cl !! msg_key id); [discriminate |].
    destruct (cl_spawn_error cl); discriminate.
  - intros -> ->. reflexivity.
  - intros e -> ->. split; [reflexivity |]. simpl. apply lookup_insert_eq.
  - reflexivity.
Qed.

Lemma push_to_flow_returns_id_witness :
  fst (push_to_flow "local" "flowA" goal_message id_1 cl_u1) = Ok (RetUUID id_1)
  /\ fst (push_to_flow "local" "flowA" goal_message id_1 cl_u1_full)
     = Raise (Exn "DispatchFailed" "capacity").
Proof.
  split.
  - apply (proj1 (proj2 (push_to_flow_returns_id "local" "flowA" goal_message
                           id_1 cl_u1))); reflexivity.
  - apply (proj1 (proj2 (proj2 (push_to_flow_returns_id "local" "flowA"
                                  goal_message id_1 cl_u1_full)))
             (Exn "DispatchFailed" "capacity")); reflexivity.
Defined.

(** C2: among the operations a call of [push_to_flow] issues, every
    [run_task] comes strictly after the [create_entry] that stores the
    message under ["push_tasks:{id}:msg"]; and when that key is free the
    call issues exactly the write followed by the spawn. *)
Theorem push_to_flow_store_before_spawn t r m id cl :
  let ops := issued cl (snd (push_to_flow t r m id cl)) in
  (forall i proto param ps flag,
      ops !! i = Some (OpRunTask proto param ps flag) ->
      exists j, (j < i)%nat
                /\ ops !! j = Some (OpCreateEntry (msg_key id) (WSerialized m)))
  /\ (cl_storage cl !! msg_key id = None ->
        ops = [OpCreateEntry (msg_key id) (WSerialized m);
               OpRunTask "coflows_push" (WJson (push_param r id))
                 (role_assignment (cl_user_id cl) t) true]).
Proof.
  assert (Hops : issued cl (snd (push_to_flow t r m id cl)) =
    match cl_storage cl !! msg_key id with
    | Some _ => [OpCreateEntry (msg_key id) (WSerialized m)]
    | None => [OpCreateEntry (msg_key id) (WSerialized m);
               OpRunTask "coflows_push" (WJson (push_param r id))
                 (role_assignment (cl_user_id cl) t) true]
    end).
  { rewrite push_to_flow_state. simpl.
    destruct (cl_storage cl !! msg_key id); simpl.
    - apply issued_log.
    - unfold issued, log, set_storage; simpl.
      rewrite <- app_assoc, drop_app_length. reflexivity. }
  simpl. rewrite Hops. split.
  - intros i proto param ps flag Hi.
    destruct (cl_storage cl !! msg_key id).
    + destruct i as [| [| i]]; simpl in Hi; discriminate.
    + destruct i as [| [| i]]; simpl in Hi; try discriminate.
      exists 0%nat. split; [lia | reflexivity].
  - intros ->. reflexivity.
Qed.

Lemma push_to_flow_store_before_spawn_witness :
  issued cl_u1 (snd (push_to_flow "u2" "flowA" goal_message id_1 cl_u1))
  = [OpCreateEntry (msg_key id_1) (WSerialized goal_message);
     OpRunTask "coflows_push" (WJson (push_param "flowA" id_1))
       (role_assignment "u1" "u2") true].
Proof.
  apply (push_to_flow_store_before_spawn "u2" "flowA" goal_message id_1 cl_u1).
  reflexivity.
Defined.

(** C7: the tasks a call of [push_to_flow] spawns all carry the same
    participant list: the single pair (caller, receiver) when the target is
    the sentinel ["local"] or the caller's own identity, and otherwise the
    ordered pairs (caller, initiator), (target, receiver); when the message
    key is free exactly one task is spawned. *)
Theorem push_to_flow_role_assignment t r m id cl :
  let caller := cl_user_id cl in
  let expected :=
    if decide (t = "local" \/ t = caller)
    then [mkParticipant caller "receiver"]
    else [mkParticipant caller "initiator"; mkParticipant t "receiver"] in
  let spawned := spawned_participants (issued cl (snd (push_to_flow t r m id cl))) in
  Forall (fun ps => ps = expected) spawned
  /\ (cl_storage cl !! msg_key id = None -> spawned = [expected]).
Proof.
  simpl. rewrite push_to_flow_state. simpl.
  destruct (cl_storage cl !! msg_key id) eqn:Hk; simpl.
  - rewrite issued_log. simpl. split; [constructor | discriminate].
  - unfold issued, log, set_storage; simpl.
    rewrite <- app_assoc, drop_app_length. simpl.
    split; [| reflexivity].
    repeat constructor.
Qed.

Lemma push_to_flow_role_assignment_witness :
  spawned_participants
    (issued cl_u1 (snd (push_to_flow "u1" "flowA" goal_message id_1 cl_u1)))
    = [[mkParticipant "u1" "receiver"]]
  /\ spawned_participants
       (issued cl_u1 (snd (push_to_flow "u2" "flowA" goal_message id_1 cl_u1)))
     = [[mkParticipant "u1" "initiator"; mkParticipant "u2" "receiver"]].
Proof.
  split.
  - apply (push_to_flow_role_assignment "u1" "flowA" goal_message id_1 cl_u1).
    reflexivity.
  - apply (push_to_flow_role_assignment "u2" "flowA" goal_message id_1 cl_u1).
    reflexivity.
Defined.

(** C8: [try_get] never blocks and leaves the store as it is; it returns
    [None] without raising when the addressed response entry is absent,
    and the stored response message when the entry is present. *)
Theorem try_get_total self cl :
  fst (try_get self cl) <> Blocked
  /\ cl_storage (snd (try_get self cl)) = cl_storage cl
  /\ (cl_storage cl !! colink_storage_key self = None ->
        fst (try_get self cl) = Ok None)
  /\ (forall m,
        cl_storage cl !! colink_storage_key self = Some (WSerialized m) ->
        fst (try_get self cl) = Ok (Some m)).
Proof.
  unfold try_get, read_entry, OutputMessage_deserialize,
    bind, modify, get_state, ret, raise; simpl.
  destruct (cl_storage cl !! colink_storage_key self) as [[m | v | v | s] |];
    simpl; (split; [discriminate |]); (split; [reflexivity |]);
    split; intros; congruence.
Qed.

Lemma try_get_total_witness :
  fst (try_get (FlowFuture_init id_1) cl_u1) = Ok None
  /\ fst (try_get (FlowFuture_init id_1) cl_u1_answered) = Ok (Some answer_message).
Proof.
  split.
  - apply (try_get_total (FlowFuture_init id_1) cl_u1). reflexivity.
  - apply (try_get_total (FlowFuture_init id_1) cl_u1_answered). reflexivity.
Defined.

(** * Properties of the simple-invoke protocol *)

Lemma appends_ret {A} (a : A) : appends (ret a).
Proof. intros cl. exists []. simpl. by rewrite app_nil_r. Qed.

Lemma appends_raise {A} e : appends (@raise CoLink A e).
Proof. intros cl. exists []. simpl. by rewrite app_nil_r. Qed.

Lemma appends_block {A} : appends (@block CoLink A).
Proof. intros cl. exists []. simpl. by rewrite app_nil_r. Qed.

Lemma appends_bind {A B} (c : M CoLink A) (k : A -> M CoLink B) :
  appends c -> (forall a, appends (k a)) -> appends (bind c k).
Proof.
  intros Hc Hk cl. unfold bind.
  destruct (Hc cl) as [l Hl]. destruct (c cl) as [[a | e |] cl1]; simpl in *.
  - destruct (Hk a cl1) as [l' Hl']. exists (l ++ l').
    rewrite Hl', Hl. by rewrite app_assoc.
  - by exists l.
  - by exists l.
Qed.

Lemma appends_log o : appends (modify (log o)).
Proof. intros cl. by exists [o]. Qed.

Lemma appends_get_state : appends (@get_state CoLink).
Proof. intros cl. exists []. simpl. by rewrite app_nil_r. Qed.

Lemma appends_set_storage st : appends (modify (set_storage st)).
Proof. intros cl. exists []. simpl. by rewrite app_nil_r. Qed.

Lemma appends_set_queues q : appends (modify (set_queues q)).
Proof. intros cl. exists []. simpl. by rewrite app_nil_r. Qed.

Create HintDb trace.
#[local] Hint Resolve appends_ret appends_raise appends_block appends_log
  appends_get_state appends_set_storage appends_set_queues : trace.

(** Splits a computation along its binds and case distinctions. *)
Ltac appends_tac :=
  repeat first
    [ solve [eauto with trace]
    | apply appends_bind; [| intros ?]
    | match goal with
      | |- appends (match ?x with _ => _ end) => destruct x
      end ].

Lemma appends_list_getitem {A} (l : list A) i : appends (list_getitem l i).
Proof. unfold list_getitem. appends_tac. Qed.

Lemma appends_recv_variable name sender : appends (recv_variable name sender).
Proof. unfold recv_variable. appends_tac. Qed.

Lemma appends_pickle_loads b : appends (pickle_loads b).
Proof. unfold pickle_loads. appends_tac. Qed.

Lemma appends_as_message obj : appends (as_message obj).
Proof. unfold as_message. appends_tac. Qed.

Lemma appends_as_key v : appends (as_key v).
Proof. unfold as_key. appends_tac. Qed.

Lemma appends_setitem2 d k1 k2 v : appends (setitem2 d k1 k2 v).
Proof. unfold setitem2, getitem. appends_tac. Qed.

Lemma appends_update_entry key payload : appends (update_entry key payload).
Proof. unfold update_entry. appends_tac. Qed.

Lemma appends_get_next_update_message sub :
  appends (get_next_update_message sub).
Proof. unfold get_next_update_message. appends_tac. Qed.

Lemma appends_send_variable name payload rs :
  appends (send_variable name payload rs).
Proof. unfold send_variable. appends_tac. Qed.

#[local] Hint Resolve appends_list_getitem appends_recv_variable
  appends_pickle_loads appends_as_message appends_as_key appends_setitem2
  appends_update_entry appends_get_next_update_message
  appends_send_variable : trace.

Lemma appends_relay_after_setup tfq q sub ps :
  appends (relay_after_setup tfq q sub ps).
Proof. unfold relay_after_setup. appends_tac. Qed.

(** In the queue-relay submode a task whose parameter unpickles first
    subscribes, and then runs the remaining statements. *)
Lemma targetflow_relay_run tfq ps cl :
  run_simpleinvoke_targetflow None (WPickle tfq) ps cl =
    let q := response_queue_of tfq cl in
    relay_after_setup tfq q q ps (log (OpNewSubscriber q) (log (OpSubscribe q) cl)).
Proof. reflexivity. Qed.

(** C3: in the queue-relay submode (no ephemeral flow factory), whenever a
    run of the target-flow role forwards the input with [update_entry], it
    is not the first operation of the run: the first one is the [subscribe]
    to the response queue named after the target queue and the task id. *)
Theorem targetflow_subscribe_before_forward param participants cl :
  let ops :=
    issued cl (snd (run_simpleinvoke_targetflow None param participants cl)) in
  forall i key payload,
    ops !! i = Some (OpUpdateEntry key payload) ->
    exists target_flow_queue,
      param = WPickle target_flow_queue
      /\ (0 < i)%nat
      /\ ops !! 0%nat = Some (OpSubscribe (response_queue_of target_flow_queue cl)).
Proof.
  simpl. intros i key payload.
  destruct param as [m | v | tfq | s];
    try (unfold issued; simpl; rewrite drop_all; rewrite lookup_nil; discriminate).
  rewrite targetflow_relay_run. simpl.
  set (q := response_queue_of tfq cl).
  destruct (appends_relay_after_setup tfq q q participants
              (log (OpNewSubscriber q) (log (OpSubscribe q) cl))) as [l Hl].
  unfold issued. rewrite Hl. simpl.
  rewrite <- !app_assoc, drop_app_length. simpl.
  intros Hi. exists tfq. split; [reflexivity |]. split; [| reflexivity].
  destruct i; [discriminate Hi | lia].
Qed.

Lemma targetflow_subscribe_before_forward_witness :
  exists target_flow_queue,
    WPickle (VStr "flowA") = WPickle target_flow_queue
    /\ (0 < 3)%nat
    /\ issued cl_u2
         (snd (run_simpleinvoke_targetflow None (WPickle (VStr "flowA")) u1_u2 cl_u2))
         !! 0%nat
       = Some (OpSubscribe (response_queue_of target_flow_queue cl_u2)).
Proof.
  apply (targetflow_subscribe_before_forward (WPickle (VStr "flowA")) u1_u2 cl_u2 3
           "flowA"
           (pickle_dumps (value_of_message
              (with_data relayed_input
                 (<["colink_meta_data" :=
                      VDict (<["response_queue_name" :=
                                 VStr "simple-invoke-serve:flowA:task-7"]> ∅)]>
                    (msg_data relayed_input)))))).
  vm_compute. reflexivity.
Defined.

(** C9 fails on the code: in ephemeral submode, when the data of the flow's
    output already has a ["meta_data"] entry (and no ["colink_meta_data"]
    one), the test on ["meta_data"] skips the creation of the
    ["colink_meta_data"] dict, the attachment of the state raises
    [KeyError], and nothing is sent back to the initiator. *)
Theorem ephemeral_state_key_error :
  let run :=
    run_simpleinvoke_targetflow
      (Some (existT (fixed_reply_flow reply_with_meta_data) 0%nat))
      (WPickle (VStr "flowA")) u1_u2 cl_u2 in
  fst run = Raise (KeyError "colink_meta_data")
  /\ issued cl_u2 (snd run)
     = [OpRecvVariable "input_msg" (mkParticipant "u1" "initiator")].
Proof. vm_compute. split; reflexivity. Qed.

(** On output data without a ["meta_data"] entry the same run does attach
    the state of the flow, as it is after the call, and sends the output. *)
Lemma ephemeral_state_attached :
  let reply : gmap string value := <["output_data" := VStr "done"]> ∅ in
  let run :=
    run_simpleinvoke_targetflow
      (Some (existT (fixed_reply_flow reply) 0%nat))
      (WPickle (VStr "flowA")) u1_u2 cl_u2 in
  fst run = Ok tt
  /\ issued cl_u2 (snd run)
     = [OpRecvVariable "input_msg" (mkParticipant "u1" "initiator");
        OpSendVariable "output_msg"
          (WPickle (VMessage
             (<["colink_meta_data" :=
                  VDict (<["state" := VDict (<["calls" := VInt 1]> ∅)]> ∅)]> reply)
             "FixedReply" "caller"))
          [mkParticipant "u1" "initiator"]].
Proof. vm_compute. split; reflexivity. Qed.

(** * Properties of [FlowMultiThreadedAPILauncher.predict] *)

Section LauncherFacts.
Context {F : FlowClass}.
Implicit Types (self : Launcher) (fw : FlowWithInterfaces F)
  (sample idd : gmap string value) (acc : Acc) (f : flow_state F).

(** An invocation returns or raises: calls into flows and interfaces
    terminate. *)
Lemma invoke_not_blocked fw idd f : fst (invoke fw idd f) <> Blocked.
Proof.
  unfold invoke, bind, get_state, getitem, ret, raise, lift_result.
  destruct (flow_call F f _) as [[m | e] f1]; simpl; [| discriminate].
  destruct (msg_data m !! "output_data"); simpl; [| discriminate].
  destruct (output_interface fw) as [oi |]; simpl; [| discriminate].
  destruct (oi f1 v); simpl; discriminate.
Qed.

(** One step of the retry loop. *)
Lemma attempts_success self fw sample idd k acc f m od f1 :
  invoke fw idd f = (Ok (m, od), f1) ->
  attempts self fw sample idd (S k) acc f =
    (Ok (mkAcc (inference_outputs acc ++ [VDict (msg_data m)])
               (human_readable_outputs acc ++ [od]) None), f1).
Proof.
  intros H. simpl. unfold bind, try_except. rewrite H. reflexivity.
Qed.

Lemma attempts_failure self fw sample idd k acc f e f1 :
  is_Some (sample !! "id") ->
  0 <= wait_time_between_retries self ->
  invoke fw idd f = (Raise e, f1) ->
  exn_is_Exception e = true ->
  attempts self fw sample idd (S k) acc f =
    attempts self fw sample idd k
      (mkAcc (inference_outputs acc) (human_readable_outputs acc)
             (Some (exn_str e))) f1.
Proof.
  intros [v Hid] Hw H He. simpl. unfold bind at 1, try_except. rewrite H, He.
  unfold bind, getitem, sleep. rewrite Hid. simpl.
  destruct (Z.ltb_spec (wait_time_between_retries self) 0); [lia |].
  reflexivity.
Qed.

Lemma attempts_total self fw sample idd k :
  is_Some (sample !! "id") ->
  0 <= wait_time_between_retries self ->
  raises_exceptions_only fw idd ->
  forall acc f, exists acc' f',
    attempts self fw sample idd k acc f = (Ok acc', f')
    /\ attempts_post fw idd k acc f acc' f'.
Proof.
  intros Hid Hw Hexc. induction k as [| k IH]; intros acc f.
  - exists acc, f. split; [reflexivity | by constructor].
  - destruct (invoke fw idd f) as [[[m od] | e |] f1] eqn:Hinv.
    + eexists _, _. split; [by apply attempts_success |].
      by eapply AttemptsSuccess.
    + rewrite (attempts_failure _ _ _ _ _ _ _ _ _ Hid Hw Hinv
                 (Hexc _ _ _ Hinv)).
      destruct (IH (mkAcc (inference_outputs acc) (human_readable_outputs acc)
                          (Some (exn_str e))) f1) as (acc' & f' & Hrun & Hpost).
      exists acc', f'. split; [exact Hrun |].
      inversion Hpost; subst; simpl in *.
      * by eapply AttemptsFailure.
      * by eapply AttemptsSuccess.
      * by eapply AttemptsFailure.
    + exfalso. apply (invoke_not_blocked fw idd f). by rewrite Hinv.
Qed.

End LauncherFacts.

Section FaultTolerantLoops.
Context {F : FlowClass} (self : Launcher) (fw : FlowWithInterfaces F)
  (sample idd : gmap string value).
Hypothesis Hft : fault_tolerant_mode self = true.
Hypothesis Hid : is_Some (sample !! "id").
Hypothesis Hwait : 0 <= wait_time_between_retries self.

Lemma repetition_fault_tolerant acc f :
  repetition self fw sample idd acc f =
    attempts self fw sample idd (Z.to_nat (n_batch_retries self))
      (mkAcc (inference_outputs acc) (human_readable_outputs acc) None) f.
Proof.
  destruct Hid as [v Hv].
  unfold repetition, bind, getitem. rewrite Hv, Hft. reflexivity.
Qed.

(** A repetition that ends with an error ends the loop, whatever the number
    of repetitions left. *)
Lemma repetitions_break n acc f acc' f' s :
  repetition self fw sample idd acc f = (Ok acc', f') ->
  _error acc' = Some s ->
  repetitions self fw sample idd (S n) acc f = (Ok acc', f').
Proof.
  intros Hrep Herr. simpl. unfold bind. rewrite Hrep, Herr. reflexivity.
Qed.

(** A repetition that ends without error is followed by a reset and the
    remaining repetitions. *)
Lemma repetitions_continue n acc f acc' f' f'' :
  repetition self fw sample idd acc f = (Ok acc', f') ->
  _error acc' = None ->
  flow_reset F f' = (Returns tt, f'') ->
  repetitions self fw sample idd (S n) acc f =
    repetitions self fw sample idd n acc' f''.
Proof.
  intros Hrep Herr Hreset. simpl. unfold bind at 1. rewrite Hrep, Herr.
  unfold bind, reset. rewrite Hreset. reflexivity.
Qed.

Hypothesis Hreset : forall f, fst (flow_reset F f) = Returns tt.
Hypothesis Hretries : 1 <= n_batch_retries self.
Hypothesis Hexc : raises_exceptions_only fw idd.

(** The loop over the repetitions returns; it keeps the outputs it started
    with; it ends without error after one output per repetition, or with the
    message of the last failure and fewer outputs. *)
Lemma repetitions_total n :
  forall acc f,
    _error acc = None ->
    exists acc' f',
      repetitions self fw sample idd n acc f = (Ok acc', f')
      /\ inference_outputs acc `prefix_of` inference_outputs acc'
      /\ match _error acc' with
         | None =>
             length (inference_outputs acc')
             = (length (inference_outputs acc) + n)%nat
         | Some s =>
             (length (inference_outputs acc')
              < length (inference_outputs acc) + n)%nat
             /\ last_failure fw idd f' s
         end.
Proof.
  induction n as [| n IH]; intros acc f Hacc.
  - exists acc, f. split; [reflexivity |]. split; [reflexivity |].
    rewrite Hacc. lia.
  - destruct (attempts_total self fw sample idd (Z.to_nat (n_batch_retries self))
                Hid Hwait Hexc
                (mkAcc (inference_outputs acc) (human_readable_outputs acc) None) f)
      as (acc1 & f1 & Hrun & Hpost).
    rewrite <- repetition_fault_tolerant in Hrun.
    inversion Hpost as [Hk | f0 m od f1' Hinv | f0 e f1' Hinv]; subst.
    + lia.
    + destruct (flow_reset F f1) as [r f2] eqn:Hr.
      pose proof (Hreset f1) as Hr'. rewrite Hr in Hr'. simpl in Hr'. subst r.
      rewrite (repetitions_continue n acc f _ f1 f2 Hrun); [| reflexivity | exact Hr].
      match type of Hrun with
      | _ = (Ok ?a, _) =>
          destruct (IH a f2 eq_refl) as (acc' & f' & Hrun' & Hpre & Hend)
      end.
      cbn [inference_outputs] in Hpre, Hend.
      exists acc', f'. split; [exact Hrun' |]. split.
      * etrans; [| exact Hpre]. by apply prefix_app_r.
      * rewrite length_app in Hend. cbn [length] in Hend.
        destruct (_error acc'); [destruct Hend; split; [lia | done] | lia].
    + eexists _, f1. split; [by eapply repetitions_break |].
      cbn [inference_outputs _error].
      split; [reflexivity |]. split; [lia |]. by exists f0, e.
Qed.

End FaultTolerantLoops.

Lemma bind_Ok_inv {S A B} (c : M S A) (k : A -> M S B) s b s'' :
  bind c k s = (Ok b, s'') ->
  exists a s', c s = (Ok a, s') /\ k a s' = (Ok b, s'').
Proof.
  unfold bind. destruct (c s) as [[a | e |] s']; try discriminate.
  intros H. by exists a, s'.
Qed.

Lemma list_getitem_inv {S A} (l : list A) i (s s' : S) a :
  list_getitem l i s = (Ok a, s') -> l !! i = Some a /\ s' = s.
Proof.
  unfold list_getitem. destruct (l !! i); [| discriminate].
  intros H. by injection H as -> ->.
Qed.

Section PredictFacts.
Context {F : FlowClass}.
Implicit Types (self : Launcher) (w : World F) (fw : FlowWithInterfaces F).

Lemma dict_setitem_run w l d k v :
  heap w !! l = Some (PyDict d) ->
  dict_setitem l k v w =
    (Ok tt, set_heap (<[l := PyDict (<[k := v]> d)]> (heap w)) w).
Proof.
  intros H. unfold dict_setitem, read_dict, bind, get_state, modify.
  rewrite H. reflexivity.
Qed.

Lemma read_list_inv w l items w' :
  read_list l w = (Ok items, w') ->
  heap w !! l = Some (PyList items) /\ w' = w.
Proof.
  unfold read_list, bind, get_state.
  destruct (heap w !! l) as [[items' | d] |]; try discriminate.
  intros H. by injection H as -> ->.
Qed.

Lemma read_dict_inv w l d w' :
  read_dict l w = (Ok d, w') ->
  heap w !! l = Some (PyDict d) /\ w' = w.
Proof.
  unfold read_dict, bind, get_state.
  destruct (heap w !! l) as [[items | d'] |]; try discriminate.
  intros H. by injection H as -> ->.
Qed.

Lemma queue_get_inv w rid w' :
  queue_get w = (Ok rid, w') ->
  exists rest, _resource_IDs w = rid :: rest /\ w' = set_resource_IDs rest w.
Proof.
  unfold queue_get, bind, get_state, modify, ret.
  destruct (_resource_IDs w) as [| i rest]; [discriminate |].
  intros H. injection H as -> <-. by exists rest.
Qed.

(** A run of [predict] on a batch of one sample, with a free slot: the
    outcome of the inference decides everything else. *)
Lemma predict_run self batch w s d rid rest fw path :
  heap w !! batch = Some (PyList [s]) ->
  heap w !! s = Some (PyDict d) ->
  _resource_IDs w = rid :: rest ->
  flows w !! rid = Some fw ->
  paths_to_output_files self !! rid = Some path ->
  predict self batch w =
    let fl f' := <[rid := with_flow fw f']> (flows w) in
    match inference self fw d (flow fw) with
    | (Ok acc, f') =>
        (Ok batch,
         mkWorld (fl f') (rest ++ [rid])
           (<[s := PyDict (sample_after d acc)]> (heap w))
           (output_files w
              ++ [(path, [record_of keys_to_write (sample_after d acc)])]))
    | (Raise e, f') => (Raise e, mkWorld (fl f') rest (heap w) (output_files w))
    | (Blocked, f') => (Blocked, mkWorld (fl f') rest (heap w) (output_files w))
    end.
Proof.
  intros Hb Hs Hq Hf Hp.
  unfold predict, read_list, queue_get, queue_put, list_getitem, write_batch_output,
    bind, get_state, modify, ret, raise.
  rewrite Hb. cbn [length]. rewrite decide_True by reflexivity.
  rewrite Hq. cbn [flows set_resource_IDs]. rewrite Hf, Hp.
  cbn [for_each_sample]. unfold run_sample, read_dict, on_flow, bind, get_state, ret.
  cbn [heap set_resource_IDs]. rewrite Hs.
  destruct (inference self fw d (flow fw)) as [[acc | e |] f']; try reflexivity.
  erewrite dict_setitem_run by (cbn; exact Hs).
  erewrite dict_setitem_run by (cbn; apply lookup_insert_eq).
  erewrite dict_setitem_run by (cbn; apply lookup_insert_eq).
  cbn [read_dicts]. unfold read_dict, bind, get_state, ret. cbn.
  rewrite lookup_insert_eq. rewrite !insert_insert_eq. reflexivity.
Qed.

(** A run of [predict] that returns was given a batch of one sample and
    found a free slot with its flow and output path. *)
Lemma predict_inv self batch w r w' :
  predict self batch w = (Ok r, w') ->
  exists s d rid rest fw path,
    heap w !! batch = Some (PyList [s])
    /\ heap w !! s = Some (PyDict d)
    /\ _resource_IDs w = rid :: rest
    /\ flows w !! rid = Some fw
    /\ paths_to_output_files self !! rid = Some path.
Proof.
  unfold predict. intros H.
  apply bind_Ok_inv in H as (items & w1 & Hb & H).
  apply read_list_inv in Hb as [Hb ->].
  apply bind_Ok_inv in H as ([] & w1 & Hlen & H).
  destruct (decide (length items = 1%nat)) as [Hl | Hl]; [| discriminate Hlen].
  injection Hlen as <-.
  destruct items as [| s [| s' items]]; try discriminate Hl.
  apply bind_Ok_inv in H as (rid & w1 & Hq & H).
  apply queue_get_inv in Hq as (rest & Hq & ->).
  apply bind_Ok_inv in H as (w1 & w2 & Hw & H). injection Hw as <- <-.
  apply bind_Ok_inv in H as (fw & w2 & Hf & H).
  apply list_getitem_inv in Hf as [Hf ->]. cbn [flows set_resource_IDs] in Hf.
  apply bind_Ok_inv in H as (path & w2 & Hp & H).
  apply list_getitem_inv in Hp as [Hp ->].
  apply bind_Ok_inv in H as ([] & w2 & Hs & _).
  cbn [for_each_sample] in Hs.
  apply bind_Ok_inv in Hs as ([] & w3 & Hs & _).
  unfold run_sample in Hs.
  apply bind_Ok_inv in Hs as (d & w4 & Hs & _).
  apply read_dict_inv in Hs as [Hs ->]. cbn [heap set_resource_IDs] in Hs.
  by exists s, d, rid, rest, fw, path.
Qed.

(** Both together: what a returning run was given and what it left. *)
Lemma predict_ok self batch w r w' :
  predict self batch w = (Ok r, w') ->
  exists s d rid rest fw path acc f',
    heap w !! batch = Some (PyList [s])
    /\ heap w !! s = Some (PyDict d)
    /\ _resource_IDs w = rid :: rest
    /\ flows w !! rid = Some fw
    /\ paths_to_output_files self !! rid = Some path
    /\ inference self fw d (flow fw) = (Ok acc, f')
    /\ r = batch
    /\ w' = mkWorld (<[rid := with_flow fw f']> (flows w)) (rest ++ [rid])
               (<[s := PyDict (sample_after d acc)]> (heap w))
               (output_files w
                  ++ [(path, [record_of keys_to_write (sample_after d acc)])]).
Proof.
  intros H.
  destruct (predict_inv _ _ _ _ _ H) as (s & d & rid & rest & fw & path
    & Hb & Hs & Hq & Hf & Hp).
  rewrite (predict_run _ _ _ _ _ _ _ _ _ Hb Hs Hq Hf Hp) in H. cbn zeta in H.
  destruct (inference self fw d (flow fw)) as [[acc | e |] f'] eqn:Hinf;
    try discriminate H.
  injection H as <- <-.
  by exists s, d, rid, rest, fw, path, acc, f'.
Qed.

End PredictFacts.

Lemma decide_elem_of_cons_ne {A} (k k' : string) (keys : list string) (x y : A) :
  k <> k' ->
  (if decide (k ∈ k' :: keys) then x else y)
  = (if decide (k ∈ keys) then x else y).
Proof.
  intros Hne. destruct (decide (k ∈ keys)) as [Hin | Hnin].
  - by rewrite decide_True by (by apply list_elem_of_further).
  - rewrite decide_False; [done |].
    intros [-> | Hin]%elem_of_cons; done.
Qed.

Lemma record_of_lookup_decide keys (d : gmap string value) k :
  record_of keys d !! k = if decide (k ∈ keys) then d !! k else None.
Proof.
  induction keys as [| k' keys IH]; simpl.
  - rewrite lookup_empty. destruct (decide (k ∈ [])) as [H | H]; [| done].
    by apply elem_of_nil in H.
  - destruct (decide (k = k')) as [-> | Hne].
    + rewrite decide_True by apply list_elem_of_here.
      destruct (d !! k') as [v |] eqn:Hd; [by rewrite lookup_insert_eq |].
      rewrite IH. by destruct (decide (k' ∈ keys)).
    + rewrite decide_elem_of_cons_ne by done.
      destruct (d !! k') as [v |]; [rewrite lookup_insert_ne by done |];
        exact IH.
Qed.

Lemma record_of_lookup keys (d : gmap string value) k :
  k ∈ keys -> record_of keys d !! k = d !! k.
Proof. intros Hk. by rewrite record_of_lookup_decide, decide_True. Qed.

Lemma sample_after_error d acc :
  sample_after d acc !! "error" = Some (error_value (_error acc)).
Proof. unfold sample_after. by rewrite lookup_insert_eq. Qed.

Lemma sample_after_inference_outputs d acc :
  sample_after d acc !! "inference_outputs"
  = Some (VList (inference_outputs acc)).
Proof.
  unfold sample_after.
  rewrite !lookup_insert_ne by done. by rewrite lookup_insert_eq.
Qed.

Lemma sample_after_human_readable_outputs d acc :
  sample_after d acc !! "human_readable_outputs"
  = Some (VList (human_readable_outputs acc)).
Proof.
  unfold sample_after.
  rewrite lookup_insert_ne by done. by rewrite lookup_insert_eq.
Qed.

Lemma sample_after_other d acc k :
  k ∉ ["inference_outputs"; "human_readable_outputs"; "error"] ->
  sample_after d acc !! k = d !! k.
Proof.
  intros Hk. unfold sample_after.
  rewrite !lookup_insert_ne; [done | | |]; intros <-; apply Hk;
    repeat constructor.
Qed.

Section LoopInversion.
Context {F : FlowClass} (self : Launcher) (fw : FlowWithInterfaces F)
  (sample idd : gmap string value).

(** Whenever the retry loop returns, it returns in one of its three ways. *)
Lemma attempts_Ok_inv k :
  forall acc f acc' f',
    attempts self fw sample idd k acc f = (Ok acc', f') ->
    attempts_post fw idd k acc f acc' f'.
Proof.
  induction k as [| k IH]; intros acc f acc' f' H.
  - injection H as <- <-. by constructor.
  - simpl in H. apply bind_Ok_inv in H as (r & f1 & Htry & H).
    unfold try_except in Htry.
    destruct (invoke fw idd f) as [[[m od] | e |] f1'] eqn:Hinv;
      try discriminate Htry;
      [| destruct (exn_is_Exception e); [| discriminate Htry]];
      injection Htry as <- <-.
    + injection H as <- <-. by eapply AttemptsSuccess.
    + apply bind_Ok_inv in H as (v & f2 & Hid & H).
      unfold getitem in Hid. destruct (sample !! "id"); [| discriminate Hid].
      injection Hid as _ <-.
      apply bind_Ok_inv in H as ([] & f2 & Hsl & H).
      unfold sleep in Hsl.
      destruct (wait_time_between_retries self <? 0); [discriminate Hsl |].
      injection Hsl as <-.
      apply IH in H. inversion H; subst; simpl in *.
      * by eapply AttemptsFailure.
      * by eapply AttemptsSuccess.
      * by eapply AttemptsFailure.
Qed.

(** A repetition that returns has added one output to each list and left
    no error, or has added nothing. *)
Lemma repetition_Ok_inv acc f acc' f' :
  repetition self fw sample idd acc f = (Ok acc', f') ->
  (exists x y,
      inference_outputs acc' = inference_outputs acc ++ [x]
      /\ human_readable_outputs acc' = human_readable_outputs acc ++ [y]
      /\ _error acc' = None
      /\ (fault_tolerant_mode self = false -> is_message x = true))
  \/ (inference_outputs acc' = inference_outputs acc
      /\ human_readable_outputs acc' = human_readable_outputs acc
      /\ fault_tolerant_mode self = true).
Proof.
  unfold repetition. intros H.
  apply bind_Ok_inv in H as (v & f1 & Hid & H).
  unfold getitem in Hid. destruct (sample !! "id"); [| discriminate Hid].
  injection Hid as _ <-.
  destruct (fault_tolerant_mode self) eqn:Hft.
  - apply attempts_Ok_inv in H. inversion H; subst; simpl.
    + by right.
    + left. eexists _, _. by repeat split.
    + by right.
  - apply bind_Ok_inv in H as ([m od] & f2 & Hinv & H).
    injection H as <- <-. left. eexists _, _. by repeat split.
Qed.

(** The repetitions that return have added as many outputs to one list as
    to the other, at most one per repetition. *)
Lemma repetitions_Ok_inv n :
  forall acc f acc' f',
    repetitions self fw sample idd n acc f = (Ok acc', f') ->
    exists xs ys,
      inference_outputs acc' = inference_outputs acc ++ xs
      /\ human_readable_outputs acc' = human_readable_outputs acc ++ ys
      /\ length xs = length ys
      /\ (length xs <= n)%nat
      /\ (fault_tolerant_mode self = false ->
           _error acc = None ->
           _error acc' = None /\ length xs = n
           /\ forallb is_message xs = true).
Proof.
  induction n as [| n IH]; intros acc f acc' f' H.
  - injection H as <- <-. exists [], []. rewrite !app_nil_r. by repeat split.
  - simpl in H. apply bind_Ok_inv in H as (acc1 & f1 & Hrep & H).
    apply repetition_Ok_inv in Hrep as
      [(x & y & Hio & Hhro & Herr & Hmsg) | (Hio & Hhro & Hft)].
    + rewrite Herr in H.
      apply bind_Ok_inv in H as ([] & f2 & _ & H).
      apply IH in H as (xs & ys & Hio' & Hhro' & Hlen & Hle & Hdev).
      exists (x :: xs), (y :: ys).
      rewrite Hio', Hio, Hhro', Hhro, <- !app_assoc. simpl.
      repeat split; try done; try lia.
      * by apply Hdev.
      * f_equal. by apply Hdev.
      * rewrite Hmsg by done. by apply Hdev.
    + destruct (_error acc1).
      * injection H as <- <-. exists [], []. rewrite !app_nil_r.
        repeat split; try done; try (simpl; lia); congruence.
      * apply bind_Ok_inv in H as ([] & f2 & _ & H).
        apply IH in H as (xs & ys & Hio' & Hhro' & Hlen & Hle & Hdev).
        exists xs, ys. rewrite Hio', Hio, Hhro', Hhro.
        repeat split; try done; try lia; congruence.
Qed.

(** Repetitions that end without error, one at least, leave the flow as a
    [reset] left it. *)
Lemma repetitions_end_reset n :
  forall acc f acc' f',
    repetitions self fw sample idd n acc f = (Ok acc', f') ->
    (0 < n)%nat ->
    _error acc' = None ->
    exists f0, flow_reset F f0 = (Returns tt, f').
Proof.
  induction n as [| n IH]; intros acc f acc' f' H Hn Herr; [lia |].
  simpl in H. apply bind_Ok_inv in H as (acc1 & f1 & Hrep & H).
  destruct (_error acc1) eqn:Herr1.
  - injection H as <- <-. congruence.
  - apply bind_Ok_inv in H as ([] & f2 & Hreset & H).
    unfold reset in Hreset.
    destruct (flow_reset F f1) as [[[] | e] f2'] eqn:Hr; [| discriminate Hreset].
    injection Hreset as <-.
    destruct n as [| n].
    + injection H as _ <-. by exists f1.
    + eapply IH; [exact H | lia | exact Herr].
Qed.

(** Repetitions that ended without error are followed by the remaining
    ones, from the outputs and the flow they left. *)
Lemma repetitions_app j n :
  forall acc0 f acc f0,
    repetitions self fw sample idd j acc0 f = (Ok acc, f0) ->
    _error acc = None ->
    repetitions self fw sample idd (j + n) acc0 f
    = repetitions self fw sample idd n acc f0.
Proof.
  induction j as [| j IH]; intros acc0 f acc f0 H Herr.
  - by injection H as <- <-.
  - cbn [repetitions Nat.add] in *. unfold bind at 1 in H. unfold bind at 1.
    destruct (repetition self fw sample idd acc0 f) as [[acc1 | e |] f1];
      try discriminate H.
    destruct (_error acc1) eqn:Herr1.
    + injection H as <- <-. congruence.
    + unfold bind at 1 in H. unfold bind at 1.
      destruct (reset f1) as [[[] | e |] f2]; try discriminate H.
      by apply IH.
Qed.

End LoopInversion.

Lemma inference_run {F : FlowClass} self (fw : FlowWithInterfaces F) d idd :
  match input_interface fw with
  | Some ii => ii (flow fw) d = Returns idd
  | None => idd = d
  end ->
  inference self fw d (flow fw) =
    repetitions self fw d idd (Z.to_nat (n_independent_samples self))
      (mkAcc [] [] None) (flow fw).
Proof.
  intros Hii. unfold inference, bind, get_state, lift_result.
  destruct (input_interface fw) as [ii |]; [by rewrite Hii | by subst idd].
Qed.

Lemma inference_Ok_inv {F : FlowClass} self (fw : FlowWithInterfaces F) d f acc f' :
  inference self fw d f = (Ok acc, f') ->
  exists idd f0,
    repetitions self fw d idd (Z.to_nat (n_independent_samples self))
      (mkAcc [] [] None) f0 = (Ok acc, f').
Proof.
  unfold inference. intros H.
  apply bind_Ok_inv in H as (idd & f0 & _ & H). by exists idd, f0.
Qed.

(** A flaky flow raises [RuntimeError], and the lookup of ["output_data"]
    could only raise [KeyError]: both are instances of [Exception]. *)
Lemma flaky_raises_exceptions_only k idd :
  raises_exceptions_only (flaky_slot k) idd.
Proof.
  intros f e f'. unfold invoke, bind, get_state, getitem, ret. simpl.
  destruct (f <? k)%nat; simpl; intros H; [| discriminate H].
  by injection H as <- _.
Qed.




Lemma recorded_sample_after {F : FlowClass} (w : World F) fl q s path d acc :
  recorded w
    (mkWorld fl q (<[s := PyDict (sample_after d acc)]> (heap w))
       (output_files w ++ [(path, [record_of keys_to_write (sample_after d acc)])]))
    s path (inference_outputs acc) (error_value (_error acc)).
Proof.
  exists (sample_after d acc), (record_of keys_to_write (sample_after d acc)).
  cbn [heap output_files].
  rewrite !record_of_lookup by (unfold keys_to_write; repeat constructor).
  split; [apply lookup_insert_eq |]. split; [reflexivity |].
  split; [apply sample_after_inference_outputs |].
  split; [apply sample_after_error |].
  split; [apply sample_after_inference_outputs | apply sample_after_error].
Qed.



(** C6, as stated, fails: in the development mode a flow that raises makes
    [predict] end with that exception while slot 0, taken from the pool, is
    not put back. *)
Lemma predict_raise_keeps_slot :
  let w := world_0 (flaky_slot 5) in
  _resource_IDs w = [0%nat]
  /\ fst (predict launcher_dev 1%positive w)
     = Raise (Exn "RuntimeError" "failure 0")
  /\ _resource_IDs (snd (predict launcher_dev 1%positive w)) = [].
Proof. vm_compute. repeat split; reflexivity. Qed.

(** C6 (amended): a call of [predict] that returns has taken the slot id at
    the head of the pool and has put that same id back, at the end of the
    pool, by the time it returns; a pool without duplicates stays so, and
    the id is not in the pool while the call holds it. This includes the
    fault-tolerant calls in which a repetition fails for good. A call that
    ends with an exception raised during the inference leaves the id out of
    the pool. *)
Theorem predict_releases_slot {F : FlowClass} (self : Launcher) (w : World F)
    (batch : loc) :
  (forall r w',
      predict self batch w = (Ok r, w') ->
      exists rid rest,
        _resource_IDs w = rid :: rest
        /\ _resource_IDs w' = rest ++ [rid]
        /\ (NoDup (_resource_IDs w) -> (rid ∉ rest) /\ NoDup (_resource_IDs w')))
  /\ (forall s d rid rest fw path e f',
        heap w !! batch = Some (PyList [s]) ->
        heap w !! s = Some (PyDict d) ->
        _resource_IDs w = rid :: rest ->
        flows w !! rid = Some fw ->
        paths_to_output_files self !! rid = Some path ->
        inference self fw d (flow fw) = (Raise e, f') ->
        fst (predict self batch w) = Raise e
        /\ _resource_IDs (snd (predict self batch w)) = rest).
Proof.
  split.
  - intros r w' H.
    destruct (predict_ok _ _ _ _ _ H) as (s & d & rid & rest & fw & path & acc
      & f' & _ & _ & Hq & _ & _ & _ & _ & ->).
    exists rid, rest. split; [exact Hq |]. split; [reflexivity |].
    rewrite Hq. cbn [_resource_IDs]. intros Hnd.
    apply NoDup_cons in Hnd as [Hnin Hnd]. split; [exact Hnin |].
    apply NoDup_app. split; [exact Hnd |]. split; [| apply NoDup_singleton].
    intros x Hx Hx'. apply list_elem_of_singleton in Hx'. by subst x.
  - intros s d rid rest fw path e f' Hb Hs Hq Hf Hp Hinf.
    rewrite (predict_run _ _ _ _ _ _ _ _ _ Hb Hs Hq Hf Hp). cbn zeta.
    rewrite Hinf. split; reflexivity.
Qed.

Lemma predict_releases_slot_witness :
  (let run := predict launcher_ft 1%positive (world_0 (flaky_slot 5)) in
   exists rid rest,
     _resource_IDs (world_0 (flaky_slot 5)) = rid :: rest
     /\ _resource_IDs (snd run) = rest ++ [rid]
     /\ (NoDup (_resource_IDs (world_0 (flaky_slot 5))) ->
         (rid ∉ rest) /\ NoDup (_resource_IDs (snd run))))
  /\ (let run := predict launcher_dev 1%positive (world_0 (flaky_slot 5)) in
      fst run = Raise (Exn "RuntimeError" "failure 0")
      /\ _resource_IDs (snd run) = []).
Proof.
  split.
  - apply (proj1 (predict_releases_slot launcher_ft (world_0 (flaky_slot 5))
                    1%positive) 1%positive).
    vm_compute. reflexivity.
  - apply (proj2 (predict_releases_slot launcher_dev (world_0 (flaky_slot 5))
                    1%positive)
             2%positive sample_0 0%nat [] (flaky_slot 5) "out.jsonl"
             (Exn "RuntimeError" "failure 0") 1%nat);
      vm_compute; reflexivity.
Defined.

(** C10: a call of [predict] that returns gives back the reference of the
    batch it was given, and the batch still lists the same sample; in that
    sample the keys ["inference_outputs"], ["human_readable_outputs"] and
    ["error"] are set, every other key has the value it had, and no other
    object of the heap is touched. *)
Theorem predict_frame {F : FlowClass} (self : Launcher) (w w' : World F)
    (batch r : loc) :
  predict self batch w = (Ok r, w') ->
  r = batch
  /\ heap w' !! batch = heap w !! batch
  /\ exists s d d',
       heap w !! batch = Some (PyList [s])
       /\ heap w !! s = Some (PyDict d)
       /\ heap w' !! s = Some (PyDict d')
       /\ is_Some (d' !! "inference_outputs")
       /\ is_Some (d' !! "human_readable_outputs")
       /\ is_Some (d' !! "error")
       /\ (forall k,
             k ∉ ["inference_outputs"; "human_readable_outputs"; "error"] ->
             d' !! k = d !! k)
       /\ (forall l, l <> s -> heap w' !! l = heap w !! l).
Proof.
  intros H.
  destruct (predict_ok _ _ _ _ _ H) as (s & d & rid & rest & fw & path & acc
    & f' & Hb & Hs & _ & _ & _ & _ & -> & ->).
  cbn [heap].
  assert (Hne : batch <> s) by (intros ->; congruence).
  split; [reflexivity |]. split; [by rewrite lookup_insert_ne |].
  exists s, d, (sample_after d acc).
  split; [exact Hb |]. split; [exact Hs |].
  split; [by rewrite lookup_insert_eq |].
  rewrite sample_after_inference_outputs, sample_after_human_readable_outputs,
    sample_after_error.
  repeat (split; [by eexists |]).
  split; [intros k Hk; by apply sample_after_other |].
  intros l Hl. by rewrite lookup_insert_ne.
Qed.

Lemma predict_frame_witness :
  let run := predict launcher_ft 1%positive (world_0 (flaky_slot 2)) in
  fst run = Ok 1%positive
  /\ heap (snd run) !! 1%positive = Some (PyList [2%positive])
  /\ heap (snd run) !! 2%positive =
       Some (PyDict
         (<["error" := VNone]>
            (<["human_readable_outputs" := VList [VStr "ok"]]>
               (<["inference_outputs" :=
                    VList [VDict (<["output_data" := VStr "ok"]> ∅)]]> sample_0)))).
Proof.
  assert (Hrun : predict launcher_ft 1%positive (world_0 (flaky_slot 2))
                 = (Ok 1%positive,
                    snd (predict launcher_ft 1%positive (world_0 (flaky_slot 2)))))
    by (vm_compute; reflexivity).
  destruct (predict_frame launcher_ft (world_0 (flaky_slot 2)) _ 1%positive
              1%positive Hrun) as (_ & Hbatch & _).
  split; [vm_compute; reflexivity |].
  split; [exact Hbatch | vm_compute; reflexivity].
Defined.

(** * Further properties of [coflows_utils.py] *)

Lemma list_ascii_of_string_app a b :
  String.list_ascii_of_string (a +:+ b)
  = String.list_ascii_of_string a ++ String.list_ascii_of_string b.
Proof.
  induction a as [| c a IH]; [reflexivity |].
  change (String c a +:+ b) with (String c (a +:+ b)).
  simpl. by rewrite IH.
Qed.

Lemma list_ascii_of_string_inj a b :
  String.list_ascii_of_string a = String.list_ascii_of_string b -> a = b.
Proof.
  intros H. rewrite <- (String.string_of_list_ascii_of_string a),
    <- (String.string_of_list_ascii_of_string b). by rewrite H.
Qed.

Lemma string_app_inj_r a b s : a +:+ s = b +:+ s -> a = b.
Proof.
  intros H. apply list_ascii_of_string_inj.
  apply (f_equal String.list_ascii_of_string) in H.
  rewrite !list_ascii_of_string_app in H. by apply app_inv_tail in H.
Qed.

(** The two keys of an invocation tell the ids apart, and never meet. *)
Lemma msg_key_inj id id' : msg_key id = msg_key id' -> uuid_str id = uuid_str id'.
Proof.
  unfold msg_key, PUSH_ARGS_TRANSFER_PATH. intros H.
  apply String.app_inj, String.app_inj in H. by apply string_app_inj_r in H.
Qed.

Lemma response_key_inj id id' :
  response_key id = response_key id' -> uuid_str id = uuid_str id'.
Proof.
  unfold response_key, PUSH_ARGS_TRANSFER_PATH. intros H.
  apply String.app_inj, String.app_inj in H. by apply string_app_inj_r in H.
Qed.

Lemma msg_key_response_key id id' : msg_key id <> response_key id'.
Proof.
  unfold msg_key, response_key, PUSH_ARGS_TRANSFER_PATH. intros H.
  apply String.app_inj, String.app_inj in H.
  apply (f_equal String.list_ascii_of_string) in H.
  rewrite !list_ascii_of_string_app in H.
  apply (f_equal last) in H.
  change (String.list_ascii_of_string ":msg")
    with ([":"; "m"; "s"] ++ ["g"])%char in H.
  change (String.list_ascii_of_string ":response")
    with ([":"; "r"; "e"; "s"; "p"; "o"; "n"; "s"] ++ ["e"])%char in H.
  rewrite !app_assoc, !last_snoc in H. discriminate H.
Qed.

(** [FlowFuture.get] only reads: it blocks exactly when the addressed entry
    is absent, it leaves the store as it is, and asking again gives the same
    answer; on a stored message it gives the message, or its
    ["output_data"], a [KeyError] when the data has no such key. *)
Theorem get_reads_only self output_data_only cl :
  let run := get self output_data_only cl in
  cl_storage (snd run) = cl_storage cl
  /\ fst (get self output_data_only (snd run)) = fst run
  /\ (fst run = Blocked <-> cl_storage cl !! colink_storage_key self = None)
  /\ (forall m,
        cl_storage cl !! colink_storage_key self = Some (WSerialized m) ->
        fst run =
          if output_data_only
          then match msg_data m !! "output_data" with
               | Some v => Ok v
               | None => Raise (KeyError "output_data")
               end
          else Ok (value_of_message m)).
Proof.
  unfold get, read_or_wait, OutputMessage_deserialize, getitem,
    bind, modify, get_state, ret, raise, block; simpl.
  destruct (cl_storage cl !! colink_storage_key self) as [[m | v | v | s] |] eqn:Hk;
    simpl; try rewrite Hk; simpl.
  2-5: by (repeat split; try done; intros; congruence).
  destruct output_data_only; simpl.
  - destruct (msg_data m !! "output_data") eqn:Ho; simpl; rewrite Hk; simpl;
      rewrite ?Ho; simpl; repeat split; try done; intros; simplify_eq;
      by rewrite ?Ho.
  - rewrite Hk. simpl. repeat split; try done; intros; by simplify_eq.
Qed.

Lemma get_reads_only_witness :
  fst (get (FlowFuture_init id_1) true cl_u1_answered)
  = Ok (VDict (<["answer" := VInt 42]> ∅)).
Proof.
  exact (proj2 (proj2 (proj2
           (get_reads_only (FlowFuture_init id_1) true cl_u1_answered)))
           answer_message eq_refl).
Defined.

(** A push that goes through stores the message under the message key of
    its id and touches no other entry; in particular it writes no response,
    so polling the future of the new id answers as it would have before
    the push. *)
Theorem push_stores_message_only t r m id cl :
  cl_storage cl !! msg_key id = None ->
  let cl' := snd (push_to_flow t r m id cl) in
  cl_storage cl' !! msg_key id = Some (WSerialized m)
  /\ (forall k, k <> msg_key id -> cl_storage cl' !! k = cl_storage cl !! k)
  /\ fst (try_get (FlowFuture_init id) cl') = fst (try_get (FlowFuture_init id) cl).
Proof.
  intros Hfree. rewrite push_to_flow_state, Hfree. simpl.
  split; [apply lookup_insert_eq |]. split.
  - intros k Hk. by rewrite lookup_insert_ne.
  - unfold try_get, read_entry, bind, modify, get_state, ret. simpl.
    change (PUSH_ARGS_TRANSFER_PATH +:+ ":" +:+ uuid_str id +:+ ":response")
      with (response_key id).
    rewrite lookup_insert_ne by apply msg_key_response_key.
    unfold OutputMessage_deserialize, ret, raise.
    by destruct (cl_storage cl !! response_key id) as [[] |].
Qed.

Lemma push_stores_message_only_witness :
  cl_storage (snd (push_to_flow "u2" "flowA" goal_message id_1 cl_u1))
    !! msg_key id_1 = Some (WSerialized goal_message)
  /\ fst (try_get (FlowFuture_init id_1)
            (snd (push_to_flow "u2" "flowA" goal_message id_1 cl_u1))) = Ok None.
Proof.
  destruct (push_stores_message_only "u2" "flowA" goal_message id_1 cl_u1 eq_refl)
    as (Hmsg & _ & Hpoll).
  split; [exact Hmsg |]. rewrite Hpoll. reflexivity.
Defined.

(** The parameter of every task a push spawns decodes, with
    [coflows_deserialize], to the dict of the target flow and of the id as
    a string; and the message waits under the key built from that string. *)
Theorem push_param_decodes t r m id cl :
  let cl' := snd (push_to_flow t r m id cl) in
  forall proto param ps flag,
    OpRunTask proto param ps flag ∈ issued cl cl' ->
    fst (coflows_deserialize (Some param) cl')
    = Ok (Some (VDict (<["flow_id" := VStr r]>
                         (<["message_id" := VStr (uuid_str id)]> ∅))))
    /\ cl_storage cl'
         !! (PUSH_ARGS_TRANSFER_PATH +:+ ":" +:+ uuid_str id +:+ ":msg")
       = Some (WSerialized m).
Proof.
  simpl. intros proto param ps flag.
  rewrite push_to_flow_state. simpl.
  destruct (cl_storage cl !! msg_key id) eqn:Hk; simpl.
  - rewrite issued_log. intros Hin. apply list_elem_of_singleton in Hin.
    discriminate Hin.
  - unfold issued, log, set_storage; simpl.
    rewrite <- app_assoc, drop_app_length. simpl.
    intros Hin. apply elem_of_cons in Hin as [Hin | Hin];
      [discriminate Hin |].
    apply list_elem_of_singleton in Hin. injection Hin as -> -> -> ->.
    split; [reflexivity | apply lookup_insert_eq].
Qed.

Lemma push_param_decodes_witness :
  fst (coflows_deserialize (Some (WJson (push_param "flowA" id_1)))
         (snd (push_to_flow "u2" "flowA" goal_message id_1 cl_u1)))
  = Ok (Some (VDict (<["flow_id" := VStr "flowA"]>
                       (<["message_id" := VStr (uuid_str id_1)]> ∅)))).
Proof.
  apply (push_param_decodes "u2" "flowA" goal_message id_1 cl_u1
           "coflows_push" (WJson (push_param "flowA" id_1))
           (role_assignment "u1" "u2") true).
  vm_compute. apply list_elem_of_further, list_elem_of_here.
Defined.

(** Two pushes whose ids print differently do not disturb each other: when
    both message keys are free and the substrate accepts spawns, the second
    push goes through as well and both messages are in the store
    afterwards. *)
Theorem pushes_are_independent t1 r1 m1 id1 t2 r2 m2 id2 cl :
  uuid_str id1 <> uuid_str id2 ->
  cl_storage cl !! msg_key id1 = None ->
  cl_storage cl !! msg_key id2 = None ->
  cl_spawn_error cl = None ->
  let cl1 := snd (push_to_flow t1 r1 m1 id1 cl) in
  let run2 := push_to_flow t2 r2 m2 id2 cl1 in
  fst run2 = Ok (RetUUID id2)
  /\ cl_storage (snd run2) !! msg_key id1 = Some (WSerialized m1)
  /\ cl_storage (snd run2) !! msg_key id2 = Some (WSerialized m2)
  /\ response_key id1 <> response_key id2.
Proof.
  intros Hne H1 H2 Hspawn. simpl.
  assert (Hk : msg_key id1 <> msg_key id2)
    by (intros Heq; by apply Hne, msg_key_inj).
  rewrite (push_to_flow_state t1), H1. simpl.
  rewrite push_to_flow_run. simpl.
  rewrite lookup_insert_ne by done. rewrite H2, Hspawn. simpl.
  split; [reflexivity |].
  split; [rewrite lookup_insert_ne by done; apply lookup_insert_eq |].
  split; [apply lookup_insert_eq |].
  intros Heq. by apply Hne, response_key_inj.
Qed.

Lemma pushes_are_independent_witness :
  fst (push_to_flow "u2" "flowB" answer_message (mkUUID 2)
         (snd (push_to_flow "local" "flowA" goal_message id_1 cl_u1)))
  = Ok (RetUUID (mkUUID 2)).
Proof.
  apply (pushes_are_independent "local" "flowA" goal_message id_1
           "u2" "flowB" answer_message (mkUUID 2) cl_u1);
    [vm_compute; discriminate | reflexivity | reflexivity | reflexivity].
Defined.

(** * Further properties of the simple-invoke protocol *)

(** Membership in an explicit list of operations, case by case. *)
Ltac ops_mem H :=
  repeat (apply elem_of_cons in H as [H | H]; [try discriminate H |]);
  try (by apply elem_of_nil in H).

(** Every way a run of the initiator role can go. *)
Lemma initiator_run param ps cl :
  run_simpleinvoke_initiator param ps cl =
    match param with
    | WPickle tfq =>
        let cl1 := log (OpReadOrWait (initiator_input_key tfq cl)) cl in
        match cl_storage cl !! initiator_input_key tfq cl with
        | None => (Blocked, cl1)
        | Some b =>
            match ps !! 1%nat with
            | None => (Raise (IndexError "list index out of range"), cl1)
            | Some target =>
                let cl2 := log (OpRecvVariable "output_msg" target)
                             (log (OpSendVariable "input_msg" b [target]) cl1) in
                match cl_inbox cl !! ("output_msg", user_id target) with
                | None => (Blocked, cl2)
                | Some out =>
                    let cl3 := log (OpCreateEntry (initiator_output_key tfq cl) out)
                                 cl2 in
                    match cl_storage cl !! initiator_output_key tfq cl with
                    | Some _ => (Raise (Exn "RpcError" "entry already exists"), cl3)
                    | None =>
                        (Ok tt,
                         set_storage (<[initiator_output_key tfq cl := out]>
                                        (cl_storage cl)) cl3)
                    end
                end
            end
        end
    | _ => (Raise (Exn "UnpicklingError" "invalid load key"), cl)
    end.
Proof.
  destruct param as [m | v | tfq | s]; try reflexivity.
  unfold run_simpleinvoke_initiator, initiator_input_key, initiator_output_key,
    pickle_loads, read_or_wait, list_getitem, send_variable, recv_variable,
    create_entry, get_task_id, bind, modify, get_state, ret, raise, block.
  simpl.
  destruct (cl_storage cl !! _) as [b |]; [| reflexivity]. simpl.
  destruct (ps !! 1%nat) as [target |]; [| reflexivity]. simpl.
  destruct (cl_inbox cl !! _) as [out |]; [| reflexivity]. simpl.
  destruct (cl_storage cl !! _); reflexivity.
Qed.

(** The initiator is a relay. For a parameter that unpickles to a string,
    to [None], to a bool or to an int (the values whose rendering inside
    the entry keys is modelled exactly): what it sends to the target is the
    input the task starter stored under the input key of that parameter and
    of the task, and what it stores, under the output key, is what it
    received from the target, both byte for byte. For every parameter: with
    fewer than two participants it stores nothing and does not return. *)
Theorem initiator_relays_unchanged param ps cl :
  let ops := issued cl (snd (run_simpleinvoke_initiator param ps cl)) in
  ((forall tfq, param = WPickle tfq -> rendered_exactly tfq = true) ->
   (forall name payload rs,
       OpSendVariable name payload rs ∈ ops ->
       exists tfq target,
         param = WPickle tfq /\ ps !! 1%nat = Some target
         /\ name = "input_msg" /\ rs = [target]
         /\ cl_storage cl !! initiator_input_key tfq cl = Some payload)
   /\ (forall key payload,
         OpCreateEntry key payload ∈ ops ->
         exists tfq target,
           param = WPickle tfq /\ ps !! 1%nat = Some target
           /\ key = initiator_output_key tfq cl
           /\ cl_inbox cl !! ("output_msg", user_id target) = Some payload))
  /\ ((length ps < 2)%nat ->
        fst (run_simpleinvoke_initiator param ps cl) <> Ok tt
        /\ forall key payload, OpCreateEntry key payload ∉ ops).
Proof.
  simpl. rewrite initiator_run.
  destruct param as [m | v | tfq | s];
    try (unfold issued; simpl; rewrite drop_all;
         split; [intros _; split; [intros ? ? ? H; ops_mem H
                                  | intros ? ? H; ops_mem H] |];
         intros _; split; [discriminate | intros ? ? H; ops_mem H]).
  simpl.
  destruct (cl_storage cl !! initiator_input_key tfq cl) as [b |] eqn:Hin;
    simpl.
  2: { rewrite issued_log.
       split; [intros _; split; [intros ? ? ? H; ops_mem H
                                | intros ? ? H; ops_mem H] |];
       intros _; split; [discriminate | intros ? ? H; ops_mem H]. }
  destruct (ps !! 1%nat) as [target |] eqn:Ht; simpl.
  2: { rewrite issued_log.
       split; [intros _; split; [intros ? ? ? H; ops_mem H
                                | intros ? ? H; ops_mem H] |];
       intros _; split; [discriminate | intros ? ? H; ops_mem H]. }
  assert (Hlen : ~ (length ps < 2)%nat)
    by (apply lookup_lt_Some in Ht; lia).
  destruct (cl_inbox cl !! ("output_msg", user_id target)) as [out |] eqn:Hout;
    simpl;
    [destruct (cl_storage cl !! initiator_output_key tfq cl); simpl |];
    unfold issued, log, set_storage; simpl;
    rewrite <- ?app_assoc, drop_app_length; simpl;
    (split;
     [intros _; split;
      [intros ? ? ? H; ops_mem H; simplify_eq; by exists tfq, target
      | intros ? ? H; ops_mem H; simplify_eq; by exists tfq, target] |]);
    intros; lia.
Qed.

Lemma initiator_relays_unchanged_witness :
  (exists tfq target,
     WPickle (VStr "flowA") = WPickle tfq /\ u1_u2 !! 1%nat = Some target
     /\ "input_msg" = "input_msg" /\ [mkParticipant "u2" "receiver"] = [target]
     /\ cl_storage cl_u1_task !! initiator_input_key tfq cl_u1_task
        = Some (WPickle (value_of_message relayed_input)))
  /\ (exists tfq target,
        WPickle (VStr "flowA") = WPickle tfq /\ u1_u2 !! 1%nat = Some target
        /\ initiator_output_key (VStr "flowA") cl_u1_task
           = initiator_output_key tfq cl_u1_task
        /\ cl_inbox cl_u1_task !! ("output_msg", user_id target)
           = Some (WPickle (value_of_message answer_message)))
  /\ fst (run_simpleinvoke_initiator (WPickle (VStr "flowA"))
            [mkParticipant "u1" "initiator"] cl_u1_task) <> Ok tt.
Proof.
  assert (Hstr : forall tfq,
            WPickle (VStr "flowA") = WPickle tfq -> rendered_exactly tfq = true)
    by (intros tfq [= <-]; reflexivity).
  split; [| split].
  - apply (proj1 (proj1 (initiator_relays_unchanged (WPickle (VStr "flowA"))
                           u1_u2 cl_u1_task) Hstr)).
    vm_compute. apply list_elem_of_further, list_elem_of_here.
  - apply (proj2 (proj1 (initiator_relays_unchanged (WPickle (VStr "flowA"))
                           u1_u2 cl_u1_task) Hstr)).
    vm_compute. do 3 apply list_elem_of_further. apply list_elem_of_here.
  - apply (proj2 (initiator_relays_unchanged (WPickle (VStr "flowA"))
                    [mkParticipant "u1" "initiator"] cl_u1_task)).
    simpl. lia.
Defined.

(** Every way a run of the target-flow role can go in the queue-relay
    submode, once its parameter has unpickled. *)
Lemma relay_run tfq ps cl :
  run_simpleinvoke_targetflow None (WPickle tfq) ps cl =
    let q := response_queue_of tfq cl in
    let cl0 := log (OpNewSubscriber q) (log (OpSubscribe q) cl) in
    match ps !! 0%nat with
    | None => (Raise (IndexError "list index out of range"), cl0)
    | Some init =>
        let cl1 := log (OpRecvVariable "input_msg" init) cl0 in
        match cl_inbox cl !! ("input_msg", user_id init) with
        | None => (Blocked, cl1)
        | Some (WPickle (VMessage d s t)) =>
            match d !! "colink_meta_data" with
            | None => (Raise (KeyError "colink_meta_data"), cl1)
            | Some (VDict meta) =>
                match tfq with
                | VStr key =>
                    let fwd := WPickle (VMessage (tagged_data d meta q) s t) in
                    let cl2 :=
                      log (OpNextMessage q)
                        (set_storage (<[key := fwd]> (cl_storage cl))
                           (log (OpUpdateEntry key fwd) cl1)) in
                    match cl_queues cl !! q with
                    | Some (out :: rest) =>
                        (Ok tt,
                         log (OpSendVariable "output_msg" (WPickle out) [init])
                           (set_queues (<[q := rest]> (cl_queues cl)) cl2))
                    | _ => (Blocked, cl2)
                    end
                | _ => (Raise (TypeError "key must be str"), cl1)
                end
            | Some _ =>
                (Raise (TypeError "object does not support item assignment"), cl1)
            end
        | Some (WPickle _) =>
            (Raise (Exn "AttributeError" "object has no attribute 'data'"), cl1)
        | Some _ => (Raise (Exn "UnpicklingError" "invalid load key"), cl1)
        end
    end.
Proof.
  rewrite targetflow_relay_run. cbn zeta.
  unfold relay_after_setup, tagged_data, list_getitem, recv_variable,
    pickle_loads, as_message, setitem2, getitem, as_key, update_entry,
    get_next_update_message, send_variable, pickle_dumps, value_of_message,
    with_data, bind, modify, get_state, ret, raise, block.
  simpl.
  destruct (ps !! 0%nat) as [init |]; [| reflexivity]. simpl.
  destruct (cl_inbox cl !! _) as [[m | v | v | s] |]; try reflexivity. simpl.
  destruct v as [| | | | | | d s t]; try reflexivity. simpl.
  destruct (d !! "colink_meta_data") as [[| | | | | meta |] |];
    try reflexivity. simpl.
  destruct tfq; try reflexivity. simpl.
  destruct (cl_queues cl !! _) as [[| out rest] |]; reflexivity.
Qed.

(** In the queue-relay submode the target role changes nothing but the
    routing tag: whatever it writes into the target queue is the input it
    received with the response queue name added to its colink metadata, and
    whatever it sends back is the next message of its response queue. *)
Theorem relay_forwards_tagged_input param ps cl :
  let ops := issued cl (snd (run_simpleinvoke_targetflow None param ps cl)) in
  (forall key payload,
      OpUpdateEntry key payload ∈ ops ->
      exists init d s t meta,
        param = WPickle (VStr key) /\ ps !! 0%nat = Some init
        /\ cl_inbox cl !! ("input_msg", user_id init)
           = Some (WPickle (VMessage d s t))
        /\ d !! "colink_meta_data" = Some (VDict meta)
        /\ payload
           = WPickle (VMessage
                        (tagged_data d meta (response_queue_of (VStr key) cl)) s t))
  /\ (forall name payload rs,
        OpSendVariable name payload rs ∈ ops ->
        exists tfq init out rest,
          param = WPickle tfq /\ ps !! 0%nat = Some init
          /\ name = "output_msg" /\ rs = [init]
          /\ cl_queues cl !! response_queue_of tfq cl = Some (out :: rest)
          /\ payload = WPickle out).
Proof.
  simpl.
  destruct param as [m | v | tfq | s];
    try (unfold issued; simpl; rewrite drop_all;
         split; [intros ? ? H; ops_mem H | intros ? ? ? H; ops_mem H]).
  rewrite relay_run. cbn zeta.
  destruct (ps !! 0%nat) as [init |] eqn:Hinit.
  2: { unfold issued, log; simpl. rewrite <- ?app_assoc, drop_app_length. simpl.
       split; [intros ? ? H; ops_mem H | intros ? ? ? H; ops_mem H]. }
  destruct (cl_inbox cl !! ("input_msg", user_id init))
    as [[m | v | [| | | | | | d s t] | s] |] eqn:Hin;
    try (unfold issued, log; simpl; rewrite <- ?app_assoc, drop_app_length; simpl;
         split; [intros ? ? H; ops_mem H | intros ? ? ? H; ops_mem H]).
  destruct (d !! "colink_meta_data") as [[| | | | | meta |] |] eqn:Hmeta;
    try (unfold issued, log; simpl; rewrite <- ?app_assoc, drop_app_length; simpl;
         split; [intros ? ? H; ops_mem H | intros ? ? ? H; ops_mem H]).
  destruct tfq as [| | | key | | |];
    try (unfold issued, log; simpl; rewrite <- ?app_assoc, drop_app_length; simpl;
         split; [intros ? ? H; ops_mem H | intros ? ? ? H; ops_mem H]).
  destruct (cl_queues cl !! response_queue_of (VStr key) cl)
    as [[| out rest] |] eqn:Hq;
    unfold issued, log, set_storage, set_queues; simpl;
    rewrite <- ?app_assoc, drop_app_length; simpl;
    (split;
     [intros ? ? H; ops_mem H; simplify_eq; by exists init, d, s, t, meta
     | intros ? ? ? H; ops_mem H; simplify_eq;
       by exists (VStr key), init, out, rest]).
Qed.

Lemma relay_forwards_tagged_input_witness :
  (exists init d s t meta,
     WPickle (VStr "flowA") = WPickle (VStr "flowA") /\ u1_u2 !! 0%nat = Some init
     /\ cl_inbox cl_u2 !! ("input_msg", user_id init)
        = Some (WPickle (VMessage d s t))
     /\ d !! "colink_meta_data" = Some (VDict meta)
     /\ WPickle (VMessage
                   (tagged_data (msg_data relayed_input) ∅
                      "simple-invoke-serve:flowA:task-7") "caller" "flowA")
        = WPickle (VMessage
                     (tagged_data d meta (response_queue_of (VStr "flowA") cl_u2))
                     s t))
  /\ (exists tfq init out rest,
        WPickle (VStr "flowA") = WPickle tfq /\ u1_u2 !! 0%nat = Some init
        /\ "output_msg" = "output_msg"
        /\ [mkParticipant "u1" "initiator"] = [init]
        /\ cl_queues cl_u2 !! response_queue_of tfq cl_u2 = Some (out :: rest)
        /\ WPickle (value_of_message answer_message) = WPickle out).
Proof.
  split.
  - apply (proj1 (relay_forwards_tagged_input (WPickle (VStr "flowA")) u1_u2
                    cl_u2)).
    vm_compute. do 3 apply list_elem_of_further. apply list_elem_of_here.
  - apply (proj2 (relay_forwards_tagged_input (WPickle (VStr "flowA")) u1_u2
                    cl_u2)).
    vm_compute. do 5 apply list_elem_of_further. apply list_elem_of_here.
Defined.

(** An input whose data has no ["colink_meta_data"] entry stops the
    queue-relay run with a [KeyError], whatever the parameter unpickles to:
    nothing is forwarded, nothing is stored and nothing is sent back. When
    the parameter is a string, [None], a bool or an int (the values whose
    rendering inside the queue name is modelled exactly), the operations
    issued are the subscription to the response queue of that parameter and
    of the task, its subscriber, and the receipt of the input. *)
Theorem relay_input_without_meta_data tfq ps cl init d s t :
  ps !! 0%nat = Some init ->
  cl_inbox cl !! ("input_msg", user_id init) = Some (WPickle (VMessage d s t)) ->
  d !! "colink_meta_data" = None ->
  let run := run_simpleinvoke_targetflow None (WPickle tfq) ps cl in
  fst run = Raise (KeyError "colink_meta_data")
  /\ cl_storage (snd run) = cl_storage cl
  /\ (forall key payload, OpUpdateEntry key payload ∉ issued cl (snd run))
  /\ (forall name payload rs,
        OpSendVariable name payload rs ∉ issued cl (snd run))
  /\ (rendered_exactly tfq = true ->
      issued cl (snd run)
      = [OpSubscribe (response_queue_of tfq cl);
         OpNewSubscriber (response_queue_of tfq cl);
         OpRecvVariable "input_msg" init]).
Proof.
  intros Hinit Hin Hmeta. cbn zeta. rewrite relay_run. cbn zeta.
  rewrite Hinit, Hin, Hmeta.
  assert (Hops : issued cl
            (log (OpRecvVariable "input_msg" init)
               (log (OpNewSubscriber (response_queue_of tfq cl))
                  (log (OpSubscribe (response_queue_of tfq cl)) cl)))
          = [OpSubscribe (response_queue_of tfq cl);
             OpNewSubscriber (response_queue_of tfq cl);
             OpRecvVariable "input_msg" init]).
  { unfold issued, log; simpl. rewrite <- ?app_assoc, drop_app_length.
    reflexivity. }
  cbn [fst snd]. rewrite Hops.
  split; [reflexivity |]. split; [reflexivity |].
  split; [intros ? ? H; ops_mem H |].
  split; [intros ? ? ? H; ops_mem H | reflexivity].
Qed.

Lemma relay_input_without_meta_data_witness :
  let run :=
    run_simpleinvoke_targetflow None (WPickle (VStr "flowA")) u1_u2 cl_u2_untagged in
  fst run = Raise (KeyError "colink_meta_data")
  /\ issued cl_u2_untagged (snd run)
     = [OpSubscribe "simple-invoke-serve:flowA:task-7";
        OpNewSubscriber "simple-invoke-serve:flowA:task-7";
        OpRecvVariable "input_msg" (mkParticipant "u1" "initiator")].
Proof.
  cbn zeta.
  pose proof (relay_input_without_meta_data (VStr "flowA") u1_u2 cl_u2_untagged
                (mkParticipant "u1" "initiator") (msg_data goal_message)
                "caller" "flowA") as H.
  destruct H as (Hraise & _ & _ & _ & Hops);
    [reflexivity | reflexivity | reflexivity |].
  split; [exact Hraise | exact (Hops eq_refl)].
Defined.

(** Every way a run of the target-flow role can go in ephemeral submode. *)
Lemma ephemeral_run (F : FlowClass) (flow : flow_state F) param ps cl :
  run_simpleinvoke_targetflow (Some (existT F flow)) param ps cl =
    match param with
    | WPickle _ =>
        match ps !! 0%nat with
        | None => (Raise (IndexError "list index out of range"), cl)
        | Some init =>
            let cl1 := log (OpRecvVariable "input_msg" init) cl in
            match cl_inbox cl !! ("input_msg", user_id init) with
            | None => (Blocked, cl1)
            | Some (WPickle (VMessage d s t)) =>
                match flow_call F flow (mkMessage d s t) with
                | (Throws e, _) => (Raise e, cl1)
                | (Returns out, flow') =>
                    let data1 :=
                      match msg_data out !! "meta_data" with
                      | None => <["colink_meta_data" := VDict ∅]> (msg_data out)
                      | Some _ => msg_data out
                      end in
                    match data1 !! "colink_meta_data" with
                    | None => (Raise (KeyError "colink_meta_data"), cl1)
                    | Some (VDict meta) =>
                        (Ok tt,
                         log (OpSendVariable "output_msg"
                                (WPickle
                                   (VMessage
                                      (<["colink_meta_data" :=
                                           VDict (<["state" := flow_getstate F flow']>
                                                    meta)]> data1)
                                      (msg_src out) (msg_dst out)))
                                [init]) cl1)
                    | Some _ =>
                        (Raise (TypeError "object does not support item assignment"),
                         cl1)
                    end
                end
            | Some (WPickle _) =>
                (Raise (Exn "AttributeError" "object has no attribute 'data'"), cl1)
            | Some _ => (Raise (Exn "UnpicklingError" "invalid load key"), cl1)
            end
        end
    | _ => (Raise (Exn "UnpicklingError" "invalid load key"), cl)
    end.
Proof.
  destruct param as [m | v | tfq | s]; try reflexivity.
  unfold run_simpleinvoke_targetflow, list_getitem, recv_variable,
    pickle_loads, as_message, setitem2, getitem, send_variable, pickle_dumps,
    value_of_message, with_data, bind, modify, get_state, ret, raise, block.
  simpl.
  destruct (ps !! 0%nat) as [init |]; [| reflexivity]. simpl.
  destruct (cl_inbox cl !! _) as [[m | v | v | s] |]; try reflexivity. simpl.
  destruct v as [| | | | | | d s t]; try reflexivity. simpl.
  destruct (flow_call F flow _) as [[out | e] flow']; [| reflexivity]. simpl.
  destruct (msg_data out !! "meta_data"); simpl.
  - destruct (msg_data out !! "colink_meta_data") as [[| | | | | meta |] |];
      reflexivity.
  - rewrite lookup_insert_eq. reflexivity.
Qed.

(** The ephemeral submode uses no queue and no storage: whatever the flow,
    the parameter, the participants and the input, a run only receives and
    sends variables, and leaves entries and queues as they are. *)
Theorem ephemeral_exchanges_only (F : FlowClass) (flow : flow_state F) param ps cl :
  let run := run_simpleinvoke_targetflow (Some (existT F flow)) param ps cl in
  forallb is_exchange (issued cl (snd run)) = true
  /\ cl_storage (snd run) = cl_storage cl
  /\ cl_queues (snd run) = cl_queues cl.
Proof.
  cbn zeta. rewrite ephemeral_run. cbv zeta.
  repeat case_match;
    unfold issued, log; simpl; rewrite <- ?app_assoc;
    (first [rewrite drop_app_length | rewrite drop_all]); done.
Qed.

(** What the ephemeral submode sends back when the flow returns [out]:
    without a ["meta_data"] entry in the data of [out], the data with its
    ["colink_meta_data"] entry replaced by the state of the flow after the
    call alone; with a ["meta_data"] entry and a ["colink_meta_data"] dict,
    the data with the state added to that dict. *)
Theorem ephemeral_attaches_state (F : FlowClass) (flow flow' : flow_state F)
    tfq ps cl init d s t out :
  ps !! 0%nat = Some init ->
  cl_inbox cl !! ("input_msg", user_id init) = Some (WPickle (VMessage d s t)) ->
  flow_call F flow (mkMessage d s t) = (Returns out, flow') ->
  let run :=
    run_simpleinvoke_targetflow (Some (existT F flow)) (WPickle tfq) ps cl in
  let sent (meta : gmap string value) :=
    [OpRecvVariable "input_msg" init;
     OpSendVariable "output_msg"
       (WPickle (VMessage
          (<["colink_meta_data" :=
               VDict (<["state" := flow_getstate F flow']> meta)]> (msg_data out))
          (msg_src out) (msg_dst out)))
       [init]] in
  (msg_data out !! "meta_data" = None ->
     fst run = Ok tt /\ issued cl (snd run) = sent ∅)
  /\ (forall meta,
        is_Some (msg_data out !! "meta_data") ->
        msg_data out !! "colink_meta_data" = Some (VDict meta) ->
        fst run = Ok tt /\ issued cl (snd run) = sent meta).
Proof.
  intros Hinit Hin Hcall. cbn zeta. rewrite ephemeral_run.
  rewrite Hinit. cbn zeta. rewrite Hin, Hcall. split.
  - intros Hmeta. rewrite Hmeta, lookup_insert_eq. split; [reflexivity |].
    unfold issued, log; simpl. rewrite <- ?app_assoc, drop_app_length. simpl.
    by rewrite insert_insert_eq.
  - intros meta [x Hmeta] Hcl. rewrite Hmeta, Hcl. split; [reflexivity |].
    unfold issued, log; simpl. by rewrite <- ?app_assoc, drop_app_length.
Qed.

Lemma ephemeral_attaches_state_witness :
  (let run :=
     run_simpleinvoke_targetflow
       (Some (existT (fixed_reply_flow reply_with_hop) 0%nat))
       (WPickle (VStr "flowA")) u1_u2 cl_u2 in
   fst run = Ok tt
   /\ issued cl_u2 (snd run)
      = [OpRecvVariable "input_msg" (mkParticipant "u1" "initiator");
         OpSendVariable "output_msg"
           (WPickle (VMessage
              (<["colink_meta_data" :=
                   VDict (<["state" := VDict (<["calls" := VInt 1]> ∅)]> ∅)]>
                 reply_with_hop)
              "FixedReply" "caller"))
           [mkParticipant "u1" "initiator"]])
  /\ (let run :=
        run_simpleinvoke_targetflow
          (Some (existT (fixed_reply_flow reply_with_both) 0%nat))
          (WPickle (VStr "flowA")) u1_u2 cl_u2 in
      fst run = Ok tt
      /\ issued cl_u2 (snd run)
         = [OpRecvVariable "input_msg" (mkParticipant "u1" "initiator");
            OpSendVariable "output_msg"
              (WPickle (VMessage
                 (<["colink_meta_data" :=
                      VDict (<["state" := VDict (<["calls" := VInt 1]> ∅)]>
                               (<["hop" := VInt 1]> ∅))]>
                    reply_with_both)
                 "FixedReply" "caller"))
              [mkParticipant "u1" "initiator"]]).
Proof.
  cbn zeta. split.
  - destruct (proj1 (ephemeral_attaches_state (fixed_reply_flow reply_with_hop)
                       0%nat 1%nat (VStr "flowA") u1_u2 cl_u2
                       (mkParticipant "u1" "initiator") (msg_data relayed_input)
                       "caller" "flowA" _ eq_refl eq_refl eq_refl)
                ltac:(vm_compute; reflexivity))
      as [Hok Hops].
    split; [exact Hok |].
    etrans; [exact Hops | vm_compute; reflexivity].
  - destruct (proj2 (ephemeral_attaches_state (fixed_reply_flow reply_with_both)
                       0%nat 1%nat (VStr "flowA") u1_u2 cl_u2
                       (mkParticipant "u1" "initiator") (msg_data relayed_input)
                       "caller" "flowA" _ eq_refl eq_refl eq_refl)
                (<["hop" := VInt 1]> ∅)
                ltac:(eexists; vm_compute; reflexivity)
                ltac:(vm_compute; reflexivity))
      as [Hok Hops].
    split; [exact Hok |].
    etrans; [exact Hops | vm_compute; reflexivity].
Defined.

(** When the ephemeral flow raises, the target role ends with that
    exception right after receiving the input: nothing is sent back to the
    initiator. *)
Theorem ephemeral_flow_failure (F : FlowClass) (flow flow' : flow_state F)
    tfq ps cl init d s t e :
  ps !! 0%nat = Some init ->
  cl_inbox cl !! ("input_msg", user_id init) = Some (WPickle (VMessage d s t)) ->
  flow_call F flow (mkMessage d s t) = (Throws e, flow') ->
  let run :=
    run_simpleinvoke_targetflow (Some (existT F flow)) (WPickle tfq) ps cl in
  fst run = Raise e
  /\ issued cl (snd run) = [OpRecvVariable "input_msg" init].
Proof.
  intros Hinit Hin Hcall. cbn zeta. rewrite ephemeral_run.
  rewrite Hinit. cbn zeta. rewrite Hin, Hcall.
  split; [reflexivity | apply issued_log].
Qed.

Lemma ephemeral_flow_failure_witness :
  fst (run_simpleinvoke_targetflow (Some (existT (flaky_flow 1) 0%nat))
         (WPickle (VStr "flowA")) u1_u2 cl_u2)
  = Raise (Exn "RuntimeError" "failure 0").
Proof.
  apply (ephemeral_flow_failure (flaky_flow 1) 0%nat 1%nat (VStr "flowA") u1_u2
           cl_u2 (mkParticipant "u1" "initiator") (msg_data relayed_input)
           "caller" "flowA" (Exn "RuntimeError" "failure 0"));
    reflexivity.
Defined.

(** * Further properties of [predict] *)

(** In the sample of a call of [predict] that returns, the two lists of
    outputs have the same length, at most the number of repetitions; when
    the error is null and a repetition was asked for, the flow of the slot
    is left as a [reset] left it. *)
Theorem predict_outputs_in_step {F : FlowClass} (self : Launcher)
    (w w' : World F) (batch r : loc) :
  predict self batch w = (Ok r, w') ->
  exists s d' outputs readable err rid fw f',
    heap w !! batch = Some (PyList [s])
    /\ heap w' !! s = Some (PyDict d')
    /\ d' !! "inference_outputs" = Some (VList outputs)
    /\ d' !! "human_readable_outputs" = Some (VList readable)
    /\ d' !! "error" = Some (error_value err)
    /\ length outputs = length readable
    /\ (length outputs <= Z.to_nat (n_independent_samples self))%nat
    /\ flows w !! rid = Some fw
    /\ flows w' !! rid = Some (with_flow fw f')
    /\ (err = None -> 0 < n_independent_samples self ->
        exists f0, flow_reset F f0 = (Returns tt, f')).
Proof.
  intros H.
  destruct (predict_ok _ _ _ _ _ H) as (s & d & rid & rest & fw & path & acc
    & f' & Hb & Hs & _ & Hf & _ & Hinf & _ & ->).
  apply inference_Ok_inv in Hinf as (idd & f0 & Hrep).
  destruct (repetitions_Ok_inv _ _ _ _ _ _ _ _ _ Hrep)
    as (xs & ys & Hio & Hhro & Hlen & Hle & _).
  simpl in Hio, Hhro. subst xs ys.
  exists s, (sample_after d acc), (inference_outputs acc),
    (human_readable_outputs acc), (_error acc), rid, fw, f'.
  cbn [heap flows]. rewrite lookup_insert_eq.
  split; [exact Hb |]. split; [reflexivity |].
  split; [apply sample_after_inference_outputs |].
  split; [apply sample_after_human_readable_outputs |].
  split; [apply sample_after_error |].
  split; [exact Hlen |]. split; [exact Hle |]. split; [exact Hf |].
  split; [apply list_lookup_insert_eq; by eapply lookup_lt_Some |].
  intros Herr Hn. eapply repetitions_end_reset; [exact Hrep | lia | exact Herr].
Qed.

Lemma predict_outputs_in_step_witness :
  let run := predict launcher_ft 1%positive (world_0 (flaky_slot 2)) in
  exists s d' outputs readable err rid fw f',
    heap (world_0 (flaky_slot 2)) !! 1%positive = Some (PyList [s])
    /\ heap (snd run) !! s = Some (PyDict d')
    /\ d' !! "inference_outputs" = Some (VList outputs)
    /\ d' !! "human_readable_outputs" = Some (VList readable)
    /\ d' !! "error" = Some (error_value err)
    /\ length outputs = length readable
    /\ (length outputs <= Z.to_nat (n_independent_samples launcher_ft))%nat
    /\ flows (world_0 (flaky_slot 2)) !! rid = Some fw
    /\ flows (snd run) !! rid = Some (with_flow fw f')
    /\ (err = None -> 0 < n_independent_samples launcher_ft ->
        exists f0, flow_reset (flaky_flow 2) f0 = (Returns tt, f')).
Proof.
  apply (predict_outputs_in_step launcher_ft (world_0 (flaky_slot 2)) _
           1%positive 1%positive).
  vm_compute. reflexivity.
Defined.

(** The repetitions of the development mode that return are a chain of
    invocations that returned, each followed by a [reset] that returned;
    the outputs added are the message objects of these invocations. *)
Lemma repetitions_development {F : FlowClass} self (fw : FlowWithInterfaces F)
    sample idd n :
  fault_tolerant_mode self = false ->
  forall acc f acc' f',
    repetitions self fw sample idd n acc f = (Ok acc', f') ->
    exists outs reads,
      inference_outputs acc' = inference_outputs acc ++ outs
      /\ human_readable_outputs acc' = human_readable_outputs acc ++ reads
      /\ dev_chain fw idd f outs reads f'.
Proof.
  intros Hdev. induction n as [| n IH]; intros acc f acc' f' H.
  - injection H as <- <-. exists [], []. rewrite !app_nil_r.
    repeat split. constructor.
  - cbn [repetitions] in H. apply bind_Ok_inv in H as (acc1 & g1 & Hrep & H).
    unfold repetition in Hrep.
    apply bind_Ok_inv in Hrep as (v & g0 & Hid & Hrep).
    unfold getitem in Hid. destruct (sample !! "id"); [| discriminate Hid].
    injection Hid as _ <-. rewrite Hdev in Hrep.
    apply bind_Ok_inv in Hrep as ([m od] & g2 & Hinv & Hrep).
    injection Hrep as <- <-. cbn [_error] in H.
    apply bind_Ok_inv in H as ([] & g3 & Hreset & H).
    unfold reset in Hreset.
    destruct (flow_reset F g2) as [[[] | e] g3'] eqn:Hr; [| discriminate Hreset].
    injection Hreset as <-.
    apply IH in H as (outs & reads & Hio & Hhr & Hch).
    cbn [inference_outputs human_readable_outputs] in Hio, Hhr.
    exists (value_of_message m :: outs), (od :: reads).
    rewrite Hio, Hhr, <- !app_assoc.
    split; [reflexivity |]. split; [reflexivity |].
    by eapply DevStep.
Qed.

(** An inference that returns went through the input interface first. *)
Lemma inference_Ok_inv_input {F : FlowClass} self (fw : FlowWithInterfaces F)
    d acc f' :
  inference self fw d (flow fw) = (Ok acc, f') ->
  exists idd,
    input_of fw (flow fw) d idd
    /\ repetitions self fw d idd (Z.to_nat (n_independent_samples self))
         (mkAcc [] [] None) (flow fw) = (Ok acc, f').
Proof.
  unfold inference, input_of. intros H.
  apply bind_Ok_inv in H as (idd & f0 & Hin & H). exists idd.
  destruct (input_interface fw) as [ii |].
  - unfold bind, get_state, lift_result in Hin.
    destruct (ii (flow fw) d) as [x | e]; [| discriminate Hin].
    injection Hin as -> <-. by split.
  - injection Hin as <- <-. by split.
Qed.

(** In the development mode a call of [predict] that returns has made every
    repetition succeed: the error of the sample is null and its outputs are
    as many as the repetitions, each of them a message object (not the data
    of a message, as in fault-tolerant mode). They are the very messages
    the flow of the slot at the head of the pool returned, in order, when
    invoked on what the input interface made of the sample, with a [reset]
    after each; the readable outputs are those of the same invocations, and
    the flow is left as the last [reset] left it. *)
Theorem predict_development_mode_returns {F : FlowClass} (self : Launcher)
    (w w' : World F) (batch r : loc) :
  fault_tolerant_mode self = false ->
  predict self batch w = (Ok r, w') ->
  exists s d' outputs,
    heap w !! batch = Some (PyList [s])
    /\ heap w' !! s = Some (PyDict d')
    /\ d' !! "error" = Some VNone
    /\ d' !! "inference_outputs" = Some (VList outputs)
    /\ length outputs = Z.to_nat (n_independent_samples self)
    /\ forallb is_message outputs = true
    /\ exists d readable rid fw idd f',
         heap w !! s = Some (PyDict d)
         /\ d' !! "human_readable_outputs" = Some (VList readable)
         /\ head (_resource_IDs w) = Some rid
         /\ flows w !! rid = Some fw
         /\ input_of fw (flow fw) d idd
         /\ dev_chain fw idd (flow fw) outputs readable f'
         /\ flows w' !! rid = Some (with_flow fw f').
Proof.
  intros Hdev H.
  destruct (predict_ok _ _ _ _ _ H) as (s & d & rid & rest & fw & path & acc
    & f' & Hb & Hs & Hq & Hf & _ & Hinf & _ & ->).
  apply inference_Ok_inv_input in Hinf as (idd & Hii & Hrep).
  destruct (repetitions_Ok_inv _ _ _ _ _ _ _ _ _ Hrep)
    as (xs & ys & Hio & _ & _ & _ & Hmode).
  destruct (Hmode Hdev eq_refl) as (Herr & Hlen & Hmsg).
  simpl in Hio. subst xs.
  destruct (repetitions_development _ _ _ _ _ Hdev _ _ _ _ Hrep)
    as (outs & reads & Hio & Hhr & Hch).
  simpl in Hio, Hhr.
  exists s, (sample_after d acc), (inference_outputs acc).
  cbn [heap flows]. rewrite lookup_insert_eq.
  split; [exact Hb |]. split; [reflexivity |].
  split; [by rewrite sample_after_error, Herr |].
  split; [apply sample_after_inference_outputs |].
  split; [exact Hlen |]. split; [exact Hmsg |].
  exists d, (human_readable_outputs acc), rid, fw, idd, f'.
  split; [exact Hs |].
  split; [apply sample_after_human_readable_outputs |].
  split; [by rewrite Hq |]. split; [exact Hf |]. split; [exact Hii |].
  split; [by rewrite Hio, Hhr |].
  apply list_lookup_insert_eq. by eapply lookup_lt_Some.
Qed.

Lemma predict_development_mode_returns_witness :
  let run := predict launcher_dev 1%positive (world_0 (flaky_slot 0)) in
  exists s d' outputs,
    heap (world_0 (flaky_slot 0)) !! 1%positive = Some (PyList [s])
    /\ heap (snd run) !! s = Some (PyDict d')
    /\ d' !! "error" = Some VNone
    /\ d' !! "inference_outputs" = Some (VList outputs)
    /\ length outputs = Z.to_nat (n_independent_samples launcher_dev)
    /\ forallb is_message outputs = true
    /\ exists d readable rid fw idd f',
         heap (world_0 (flaky_slot 0)) !! s = Some (PyDict d)
         /\ d' !! "human_readable_outputs" = Some (VList readable)
         /\ head (_resource_IDs (world_0 (flaky_slot 0))) = Some rid
         /\ flows (world_0 (flaky_slot 0)) !! rid = Some fw
         /\ input_of fw (flow fw) d idd
         /\ dev_chain fw idd (flow fw) outputs readable f'
         /\ flows (snd run) !! rid = Some (with_flow fw f').
Proof.
  apply (predict_development_mode_returns launcher_dev (world_0 (flaky_slot 0)) _
           1%positive 1%positive eq_refl).
  vm_compute. reflexivity.
Defined.

(** [predict] checks the size of the batch before it takes a slot, and
    waits for a slot before it touches anything: a batch that does not hold
    exactly one sample fails the assertion, and an empty pool blocks the
    call, both with flows, pool, heap and files unchanged. *)
Theorem predict_before_slot {F : FlowClass} (self : Launcher) (w : World F)
    (batch : loc) (items : list loc) :
  heap w !! batch = Some (PyList items) ->
  (length items <> 1%nat ->
     predict self batch w
     = (Raise (AssertionError
          "The Flow API model does not support batch sizes greater than 1."), w))
  /\ (length items = 1%nat -> _resource_IDs w = [] ->
      predict self batch w = (Blocked, w)).
Proof.
  intros Hb.
  unfold predict, read_list, queue_get, bind, get_state, ret, raise, block.
  rewrite Hb. split.
  - intros Hlen. by rewrite decide_False.
  - intros Hlen Hq. rewrite decide_True by done. by rewrite Hq.
Qed.

Lemma predict_before_slot_witness :
  (let w : World (flaky_flow 0) :=
     mkWorld [flaky_slot 0] [0%nat] heap_two [] in
   fst (predict launcher_ft 1%positive w)
   = Raise (AssertionError
       "The Flow API model does not support batch sizes greater than 1."))
  /\ (let w : World (flaky_flow 0) := mkWorld [flaky_slot 0] [] heap_0 [] in
      fst (predict launcher_ft 1%positive w) = Blocked).
Proof.
  split; cbn zeta.
  - rewrite (proj1 (predict_before_slot launcher_ft
                      (mkWorld [flaky_slot 0] [0%nat] heap_two [])
                      1%positive [2%positive; 3%positive] eq_refl));
      [reflexivity | simpl; lia].
  - rewrite (proj2 (predict_before_slot launcher_ft
                      (mkWorld [flaky_slot 0] [] heap_0 [])
                      1%positive [2%positive] eq_refl));
      reflexivity.
Defined.

Section PredictRuns.
Context {F : FlowClass} (self : Launcher) (w : World F) (batch s : loc)
  (d idd : gmap string value) (rid : nat) (rest : list nat)
  (fw : FlowWithInterfaces F) (path : string).
Hypothesis Hbatch : heap w !! batch = Some (PyList [s]).
Hypothesis Hsample : heap w !! s = Some (PyDict d).
Hypothesis Hpool : _resource_IDs w = rid :: rest.
Hypothesis Hslot : flows w !! rid = Some fw.
Hypothesis Hpath : paths_to_output_files self !! rid = Some path.
Hypothesis Hinput :
  match input_interface fw with
  | Some ii => ii (flow fw) d = Returns idd
  | None => idd = d
  end.

(** A call whose inference raises ends with that exception; the sample and
    the files are as before, the slot id is out of the pool, and the flow
    keeps the state the inference left it in. *)
Lemma predict_raise e f' :
  repetitions self fw d idd (Z.to_nat (n_independent_samples self))
    (mkAcc [] [] None) (flow fw) = (Raise e, f') ->
  predict self batch w
  = (Raise e,
     mkWorld (<[rid := with_flow fw f']> (flows w)) rest (heap w)
       (output_files w)).
Proof.
  intros Hrep.
  rewrite (predict_run _ _ _ _ _ _ _ _ _ Hbatch Hsample Hpool Hslot Hpath).
  cbn zeta. by rewrite (inference_run _ _ _ _ Hinput), Hrep.
Qed.

(** A sample without an ["id"] makes [predict] raise [KeyError] as soon as
    a repetition starts, in both modes: the flow is not invoked, nothing is
    written, and the slot id is not put back. *)
Theorem predict_sample_without_id :
  d !! "id" = None ->
  0 < n_independent_samples self ->
  predict self batch w
  = (Raise (KeyError "id"),
     mkWorld (<[rid := fw]> (flows w)) rest (heap w) (output_files w)).
Proof.
  intros Hid Hn.
  assert (Hfw : with_flow fw (flow fw) = fw) by by destruct fw.
  rewrite (predict_raise (KeyError "id") (flow fw)); [by rewrite Hfw |].
  destruct (Z.to_nat (n_independent_samples self)) as [| n] eqn:HN; [lia |].
  cbn [repetitions]. unfold bind, repetition, bind, getitem, raise.
  by rewrite Hid.
Qed.

(** In the development mode the first invocation that raises ends the call:
    one attempt is made, its exception leaves [predict], nothing is written
    and the sample is not touched. *)
Theorem predict_development_mode_raises e f1 :
  fault_tolerant_mode self = false ->
  is_Some (d !! "id") ->
  0 < n_independent_samples self ->
  invoke fw idd (flow fw) = (Raise e, f1) ->
  predict self batch w
  = (Raise e,
     mkWorld (<[rid := with_flow fw f1]> (flows w)) rest (heap w)
       (output_files w)).
Proof.
  intros Hdev [v Hid] Hn Hinv. apply predict_raise.
  destruct (Z.to_nat (n_independent_samples self)) as [| n] eqn:HN; [lia |].
  cbn [repetitions]. unfold bind, repetition, bind, getitem, ret.
  rewrite Hid, Hdev. cbv beta iota zeta. by rewrite Hinv.
Qed.


(** In fault-tolerant mode with no attempt allowed ([n_batch_retries] zero
    or less), the flow is never invoked, only reset once per repetition,
    and the call returns a sample without outputs and with a null error. *)
Theorem predict_no_attempts :
  fault_tolerant_mode self = true ->
  n_batch_retries self <= 0 ->
  is_Some (d !! "id") ->
  (forall f, fst (flow_reset F f) = Returns tt) ->
  let acc := mkAcc [] [] None in
  predict self batch w
  = (Ok batch,
     mkWorld
       (<[rid := with_flow fw
                   (Nat.iter (Z.to_nat (n_independent_samples self))
                      (fun f => snd (flow_reset F f)) (flow fw))]> (flows w))
       (rest ++ [rid])
       (<[s := PyDict (sample_after d acc)]> (heap w))
       (output_files w
          ++ [(path, [record_of keys_to_write (sample_after d acc)])])).
Proof.
  intros Hft Hk [v Hid] Hreset. cbn zeta.
  rewrite (predict_run _ _ _ _ _ _ _ _ _ Hbatch Hsample Hpool Hslot Hpath).
  cbn zeta. rewrite (inference_run _ _ _ _ Hinput).
  assert (Hloop : forall n f,
    repetitions self fw d idd n (mkAcc [] [] None) f
    = (Ok (mkAcc [] [] None), Nat.iter n (fun f => snd (flow_reset F f)) f)).
  { induction n as [| n IH]; intros f; [reflexivity |].
    rewrite Nat.iter_succ_r. rewrite <- IH.
    cbn [repetitions]. unfold bind at 1, repetition, bind at 1, getitem, ret.
    rewrite Hid, Hft. replace (Z.to_nat (n_batch_retries self)) with 0%nat by lia.
    cbv beta iota zeta. cbn [attempts _error inference_outputs
      human_readable_outputs]. unfold ret, bind, reset. simpl.
    pose proof (Hreset f) as Hr. destruct (flow_reset F f) as [r f2].
    simpl in Hr. by subst r. }
  by rewrite Hloop.
Qed.

End PredictRuns.

Lemma predict_sample_without_id_witness :
  let w : World (flaky_flow 0) := mkWorld [flaky_slot 0] [0%nat] heap_no_id [] in
  fst (predict launcher_ft 1%positive w) = Raise (KeyError "id")
  /\ fst (predict launcher_dev 1%positive w) = Raise (KeyError "id").
Proof.
  cbn zeta. split.
  - rewrite (predict_sample_without_id launcher_ft
               (mkWorld [flaky_slot 0] [0%nat] heap_no_id [])
               1%positive 2%positive sample_no_id sample_no_id 0%nat []
               (flaky_slot 0) "out.jsonl"
               eq_refl eq_refl eq_refl eq_refl eq_refl eq_refl eq_refl);
      [reflexivity | simpl; lia].
  - rewrite (predict_sample_without_id launcher_dev
               (mkWorld [flaky_slot 0] [0%nat] heap_no_id [])
               1%positive 2%positive sample_no_id sample_no_id 0%nat []
               (flaky_slot 0) "out.jsonl"
               eq_refl eq_refl eq_refl eq_refl eq_refl eq_refl eq_refl);
      [reflexivity | simpl; lia].
Defined.

Lemma predict_development_mode_raises_witness :
  predict launcher_dev 1%positive (world_0 (flaky_slot 5))
  = (Raise (Exn "RuntimeError" "failure 0"),
     mkWorld [with_flow (flaky_slot 5) 1%nat] [] heap_0 []).
Proof.
  rewrite (predict_development_mode_raises launcher_dev (world_0 (flaky_slot 5))
             1%positive 2%positive sample_0 sample_0 0%nat []
             (flaky_slot 5) "out.jsonl"
             eq_refl eq_refl eq_refl eq_refl eq_refl eq_refl
             (Exn "RuntimeError" "failure 0") 1%nat
             eq_refl (ex_intro _ (VInt 0) eq_refl) ltac:(simpl; lia) eq_refl).
  reflexivity.
Defined.


Lemma predict_no_attempts_witness :
  let run := predict launcher_no_retry 1%positive (world_0 (flaky_slot 5)) in
  fst run = Ok 1%positive
  /\ heap (snd run) !! 2%positive
     = Some (PyDict (sample_after sample_0 (mkAcc [] [] None)))
  /\ flows (snd run) = [flaky_slot 5].
Proof.
  cbn zeta.
  rewrite (predict_no_attempts launcher_no_retry (world_0 (flaky_slot 5))
             1%positive 2%positive sample_0 sample_0 0%nat []
             (flaky_slot 5) "out.jsonl"
             eq_refl eq_refl eq_refl eq_refl eq_refl eq_refl
             eq_refl ltac:(simpl; lia) (ex_intro _ (VInt 0) eq_refl)
             (fun _ => eq_refl)).
  repeat split; reflexivity.
Defined.

(** * Properties of [FlowLauncher.launch] *)

Section LaunchFacts.
Context {F : FlowClass} (fw : FlowWithInterfaces F) (path : option string).

(** What a sample that goes through has done: a reset, the input
    interface, one invocation, and one more entry in each list it keeps. *)
Lemma launch_sample_Ok_inv d outs f outs' f' :
  launch_sample fw path d outs f = (Ok outs', f') ->
  exists f0 idd m y,
    flow_reset F f = (Returns tt, f0)
    /\ input_of fw f0 d idd
    /\ invoke fw idd f0 = (Ok (m, y), f')
    /\ snd outs' = snd outs ++ [y]
    /\ match path with
       | None => fst outs' = fst outs
       | Some _ =>
           exists id, d !! "id" = Some id
                      /\ fst outs' = fst outs ++ [launch_output id m]
       end.
Proof.
  unfold launch_sample. intros H.
  apply bind_Ok_inv in H as ([] & f0 & Hreset & H).
  unfold reset in Hreset.
  destruct (flow_reset F f) as [[[] | e] f0'] eqn:Hr; [| discriminate Hreset].
  injection Hreset as ->.
  apply bind_Ok_inv in H as (idd & f1 & Hin & H).
  assert (Hii : input_of fw f0 d idd /\ f1 = f0).
  { unfold input_of. destruct (input_interface fw) as [ii |].
    - unfold bind, get_state, lift_result in Hin.
      destruct (ii f0 d); [| discriminate Hin]. by injection Hin as -> ->.
    - by injection Hin as -> ->. }
  destruct Hii as [Hii ->].
  apply bind_Ok_inv in H as ([m y] & f2 & Hinv & H).
  exists f0, idd, m, y.
  destruct path as [p |].
  - apply bind_Ok_inv in H as (id & f3 & Hid & H).
    unfold getitem in Hid. destruct (d !! "id") as [id' |] eqn:Hd;
      [| discriminate Hid].
    injection Hid as -> ->. injection H as <- <-.
    repeat split; try done. by exists id.
  - injection H as <- <-. by repeat split.
Qed.

(** The converse: these steps make the sample go through. *)
Lemma launch_sample_run d outs f f0 idd m y f' :
  flow_reset F f = (Returns tt, f0) ->
  input_of fw f0 d idd ->
  invoke fw idd f0 = (Ok (m, y), f') ->
  launch_sample fw path d outs f =
    match path with
    | None => (Ok (fst outs, snd outs ++ [y]), f')
    | Some _ =>
        match d !! "id" with
        | Some id => (Ok (fst outs ++ [launch_output id m], snd outs ++ [y]), f')
        | None => (Raise (KeyError "id"), f')
        end
    end.
Proof.
  intros Hr Hii Hinv. unfold launch_sample, bind at 1, reset. rewrite Hr.
  unfold bind at 1.
  assert (Hin : (match input_interface fw with
                 | Some ii => f1 <- get_state ;; lift_result (ii f1 d)
                 | None => ret d
                 end) f0 = (Ok idd, f0)).
  { unfold input_of in Hii. destruct (input_interface fw) as [ii |].
    - unfold bind, get_state, lift_result. by rewrite Hii.
    - by subst idd. }
  rewrite Hin. unfold bind at 1. rewrite Hinv.
  destruct path as [p |]; [| reflexivity].
  unfold bind, getitem. by destruct (d !! "id").
Qed.

(** The loop that returns has kept one human readable output per sample,
    and one output dict per sample when a file is given, none otherwise. *)
Lemma launch_loop_Ok_inv l :
  forall outs f outs' f',
    launch_loop fw path l outs f = (Ok outs', f') ->
    exists full hro,
      outs' = (fst outs ++ full, snd outs ++ hro)
      /\ length hro = length l
      /\ match path with
         | None => full = []
         | Some _ =>
             Forall2 (fun d o =>
                        o !! "id" = d !! "id"
                        /\ o !! "error" = Some VNone
                        /\ exists m, o !! "inference_outputs" = Some (VList [m])
                                     /\ is_message m = true) l full
         end.
Proof.
  induction l as [| d l IH]; intros outs f outs' f' H.
  - injection H as <- <-. exists [], []. rewrite !app_nil_r.
    destruct outs. repeat split; try done. destruct path; [constructor | done].
  - simpl in H. apply bind_Ok_inv in H as (outs1 & f1 & Hs & H).
    apply launch_sample_Ok_inv in Hs as (f0 & idd & m & y & _ & _ & _ & Hhro & Hfull).
    apply IH in H as (full & hro & -> & Hlen & Hshape).
    destruct path as [p |].
    + destruct Hfull as (id & Hid & Hfull).
      exists (launch_output id m :: full), (y :: hro).
      rewrite Hfull, Hhro, <- !app_assoc. simpl.
      repeat split; [lia |]. constructor; [| exact Hshape].
      unfold launch_output. rewrite Hid.
      split; [by rewrite lookup_insert_eq |].
      split; [rewrite !lookup_insert_ne by done; by rewrite lookup_insert_eq |].
      eexists. rewrite lookup_insert_ne by done. by rewrite lookup_insert_eq.
    + exists [], (y :: hro). subst full.
      rewrite Hfull, Hhro, <- !app_assoc, !app_nil_r. simpl.
      repeat split; lia.
Qed.

End LaunchFacts.

(** A run of [launch]: the loop over the samples decides the outcome, and
    the file is written only after a loop that returned. *)
Lemma launch_run {F : FlowClass} (fw : FlowWithInterfaces F)
    (data : launch_data) (path : option string) (w : LaunchWorld F) :
  launch fw data path w =
    match launch_loop fw path (samples_of data) ([], []) (launch_flow w) with
    | (Ok outs, f') =>
        (Ok outs,
         mkLaunchWorld f'
           match path with
           | Some p =>
               launch_files w
                 ++ [(p, record_of ["id"; "inference_outputs"; "error"]
                           <$> fst outs)]
           | None => launch_files w
           end)
    | (Raise e, f') => (Raise e, mkLaunchWorld f' (launch_files w))
    | (Blocked, f') => (Blocked, mkLaunchWorld f' (launch_files w))
    end.
Proof.
  unfold launch, bind, on_launch_flow, modify, ret. fold (samples_of data).
  destruct (launch_loop fw path (samples_of data) ([], []) (launch_flow w))
    as [[outs | e |] f']; try reflexivity.
  by destruct path.
Qed.

(** Without an output file, [launch] writes nothing and keeps no output
    dict: a run that returns gives an empty first list and one human
    readable output per sample, whether or not the samples have an id. *)
Theorem launch_without_file {F : FlowClass} (fw : FlowWithInterfaces F)
    (data : launch_data) (w : LaunchWorld F) :
  let run := launch fw data None w in
  launch_files (snd run) = launch_files w
  /\ forall full hro,
       fst run = Ok (full, hro) ->
       full = [] /\ length hro = length (samples_of data).
Proof.
  cbn zeta. rewrite launch_run.
  destruct (launch_loop fw None (samples_of data) ([], []) (launch_flow w))
    as [[[full hro] | e |] f'] eqn:Hloop; simpl; split; try done.
  intros full' hro' Heq. injection Heq as <- <-.
  apply launch_loop_Ok_inv in Hloop as (full' & hro' & Heq & Hlen & ->).
  simpl in Heq. by injection Heq as -> ->.
Qed.

(** With an output file, [launch] writes once, after the last sample, or
    not at all: a run that returns has appended to the file one record per
    sample, made from the output dicts it returns (the id of the sample, a
    null error, one message object as inference output); a run that does
    not return has written nothing, whatever samples went through before. *)
Theorem launch_with_file {F : FlowClass} (fw : FlowWithInterfaces F)
    (data : launch_data) (p : string) (w : LaunchWorld F) :
  let run := launch fw data (Some p) w in
  (forall full hro,
      fst run = Ok (full, hro) ->
      launch_files (snd run)
      = launch_files w
          ++ [(p, record_of ["id"; "inference_outputs"; "error"] <$> full)]
      /\ length hro = length (samples_of data)
      /\ Forall2 (fun d o =>
                    o !! "id" = d !! "id"
                    /\ o !! "error" = Some VNone
                    /\ exists m, o !! "inference_outputs" = Some (VList [m])
                                 /\ is_message m = true)
           (samples_of data) full)
  /\ ((forall outs, fst run <> Ok outs) ->
      launch_files (snd run) = launch_files w).
Proof.
  cbn zeta. rewrite launch_run.
  destruct (launch_loop fw (Some p) (samples_of data) ([], []) (launch_flow w))
    as [[[full hro] | e |] f'] eqn:Hloop; simpl; split; try done.
  - intros full' hro' Heq. injection Heq as <- <-.
    apply launch_loop_Ok_inv in Hloop as (full' & hro' & Heq & Hlen & Hshape).
    simpl in Heq. injection Heq as -> ->. by repeat split.
  - intros Hno. by destruct (Hno (full, hro)).
Qed.

Lemma launch_without_file_witness :
  let run := launch (flaky_slot 0) (Samples [sample_no_id; sample_0]) None
               launch_world_0 in
  fst run = Ok ([], [VStr "ok"; VStr "ok"])
  /\ length [VStr "ok"; VStr "ok"] = length [sample_no_id; sample_0].
Proof.
  cbn zeta. split; [vm_compute; reflexivity |].
  apply (proj2 (launch_without_file (flaky_slot 0)
                  (Samples [sample_no_id; sample_0]) launch_world_0) []).
  vm_compute. reflexivity.
Defined.

Lemma launch_with_file_witness :
  (let run := launch (flaky_slot 0) (OneSample sample_0) (Some "out.jsonl")
                launch_world_0 in
   launch_files (snd run)
   = [("out.jsonl", [launch_output (VInt 0) ok_message])])
  /\ (let run := launch (flaky_slot 0) (Samples [sample_0; sample_no_id])
                   (Some "out.jsonl") launch_world_0 in
      launch_files (snd run) = []).
Proof.
  cbn zeta. split.
  - destruct (proj1 (launch_with_file (flaky_slot 0) (OneSample sample_0)
                       "out.jsonl" launch_world_0)
                [launch_output (VInt 0) ok_message]
                [VStr "ok"] ltac:(vm_compute; reflexivity)) as [Hfiles _].
    etrans; [exact Hfiles | vm_compute; reflexivity].
  - apply (proj2 (launch_with_file (flaky_slot 0)
                    (Samples [sample_0; sample_no_id]) "out.jsonl"
                    launch_world_0)).
    intros outs. vm_compute. discriminate.
Defined.

(** When [reset] brings the flow back to one and the same state, the
    samples of a run of [launch] are independent trials: each human
    readable output of a run that returns is the one [launch] gives for
    that sample alone, from whatever state of the flow. *)
Theorem launch_samples_independent {F : FlowClass} (fw : FlowWithInterfaces F)
    (path : option string) (f_init : flow_state F) :
  (forall f, flow_reset F f = (Returns tt, f_init)) ->
  forall l w full hro,
    fst (launch fw (Samples l) path w) = Ok (full, hro) ->
    Forall2 (fun d y =>
               forall w1, exists full1,
                 fst (launch fw (OneSample d) path w1) = Ok (full1, [y]))
      l hro.
Proof.
  intros Hreset.
  assert (Hloop : forall l outs f outs' f',
    launch_loop fw path l outs f = (Ok outs', f') ->
    exists hro,
      snd outs' = snd outs ++ hro
      /\ Forall2 (fun d y =>
                    forall w1, exists full1,
                      fst (launch fw (OneSample d) path w1) = Ok (full1, [y]))
           l hro).
  { induction l as [| d l IH]; intros outs f outs' f' H.
    - injection H as <- <-. exists []. rewrite app_nil_r. by split; [| constructor].
    - simpl in H. apply bind_Ok_inv in H as (outs1 & f1 & Hs & H).
      apply launch_sample_Ok_inv in Hs
        as (f0 & idd & m & y & Hr & Hii & Hinv & Hhro & Hfull).
      rewrite Hreset in Hr. injection Hr as <-.
      apply IH in H as (hro & Hhro' & Hall).
      exists (y :: hro). rewrite Hhro', Hhro, <- app_assoc.
      split; [reflexivity |]. constructor; [| exact Hall].
      intros w1. rewrite launch_run. simpl. unfold bind.
      rewrite (launch_sample_run fw path d ([], []) (launch_flow w1)
                 f_init idd m y f1 (Hreset _) Hii Hinv).
      destruct path as [p |]; [| by eexists].
      destruct Hfull as (id & Hid & _). rewrite Hid. by eexists. }
  intros l w full hro H. rewrite launch_run in H. simpl in H.
  destruct (launch_loop fw path l ([], []) (launch_flow w))
    as [[outs | e |] f'] eqn:Hl; try discriminate H.
  injection H as ->.
  apply Hloop in Hl as (hro' & Heq & Hall). simpl in Heq. by subst hro'.
Qed.

Lemma launch_samples_independent_witness :
  Forall2 (fun d y =>
             forall w1, exists full1,
               fst (launch fixed_reply_slot (OneSample d) None w1)
               = Ok (full1, [y]))
    [sample_no_id; sample_0] [VStr "done"; VStr "done"].
Proof.
  apply (launch_samples_independent fixed_reply_slot None 0%nat
           (fun _ => eq_refl) [sample_no_id; sample_0]
           (@mkLaunchWorld (fixed_reply_flow reply_done) 5%nat []) []).
  vm_compute. reflexivity.
Defined.
